(** * Border detection and cropping of [unboxing.py]

    A shallow embedding of the core of [unboxing.py]: the pixel predicate
    [is_pixel_black], the four edge scanners [detect_top_border],
    [detect_bottom_border], [detect_left_border], [detect_right_border] and
    the entry point [unletterbox], together with the part of the imaging
    library (PIL) those functions call: [Image.size], [Image.crop],
    [Image.getdata] and [Image.convert("L")]. *)

From Stdlib Require Import ZArith List Bool Lia.
From Stdlib Require String.
Import ListNotations String.StringSyntax.
Delimit Scope string_scope with string.
Open Scope Z_scope.

(** ** Exceptions

    Python exceptions are identified by their class; a raised exception is
    recorded by the name of its class. *)

Definition exn := String.string.

Inductive result (A : Type) : Type :=
| Ok (a : A)
| Raise (e : exn).
Arguments Ok {A} a.
Arguments Raise {A} e.

Definition bind {A B : Type} (m : result A) (k : A -> result B) : result B :=
  match m with
  | Ok a => k a
  | Raise e => Raise e
  end.

Notation "x <- m ;; k" := (bind m (fun x => k))
  (at level 61, m at next level, right associativity).

(** The only exception the modelled library calls raise on the paths the
    program takes: [Image.crop] refuses a box whose right side is left of its
    left side, or whose lower side is above its upper side. *)
Definition ValueError : exn := "ValueError"%string.

(** ** Pixels and images *)

(** A pixel as [getdata] yields it: a Python [int] for a single-channel
    image, a 3-tuple for an RGB image.  Channel values are Python integers. *)
Inductive pixel : Type :=
| Lum (v : Z)
| Rgb (r g b : Z).

Inductive mode : Type := ModeL | ModeRGB.

(** An in-memory image: its mode, its size and its rows of pixels, top row
    first, each row left to right. *)
Record image : Type := Image {
  img_mode : mode;
  img_width : nat;
  img_height : nat;
  img_rows : list (list pixel)
}.

(** [image.size] is the pair (width, height) of Python integers. *)
Definition size (im : image) : Z * Z :=
  (Z.of_nat (img_width im), Z.of_nat (img_height im)).

(** [range(n)] and [range(n - 1, -1, -1)]. *)
Definition range (n : Z) : list Z := map Z.of_nat (seq 0 (Z.to_nat n)).
Definition range_down (n : Z) : list Z := rev (range n).

Definition zero_pixel (m : mode) : pixel :=
  match m with
  | ModeL => Lum 0
  | ModeRGB => Rgb 0 0 0
  end.

(** The pixel at column [x], row [y]; positions outside the image read as
    the zero pixel, which is what [crop] fills them with. *)
Definition getpixel (im : image) (x y : Z) : pixel :=
  if (0 <=? x) && (x <? Z.of_nat (img_width im)) &&
     (0 <=? y) && (y <? Z.of_nat (img_height im))
  then nth (Z.to_nat x) (nth (Z.to_nat y) (img_rows im) []) (zero_pixel (img_mode im))
  else zero_pixel (img_mode im).

(** [image.crop((x0, y0, x1, y1))]: a new image of size
    [(x1 - x0, y1 - y0)] in the same mode, whose pixel [(i, j)] is the
    source pixel [(x0 + i, y0 + j)] (the zero pixel where the box reaches
    outside the source).  A box with [x1 < x0] or [y1 < y0] is refused with
    [ValueError]. *)
Definition crop (im : image) (box : Z * Z * Z * Z) : result image :=
  let '(x0, y0, x1, y1) := box in
  if x1 <? x0 then Raise ValueError
  else if y1 <? y0 then Raise ValueError
  else Ok {| img_mode := img_mode im;
             img_width := Z.to_nat (x1 - x0);
             img_height := Z.to_nat (y1 - y0);
             img_rows :=
               map (fun j => map (fun i => getpixel im (x0 + i) (y0 + j))
                                 (range (x1 - x0)))
                   (range (y1 - y0)) |}.

(** [image.getdata()]: the pixels as one flat sequence, row by row. *)
Definition getdata (im : image) : list pixel := concat (img_rows im).

(** Luminance of an RGB pixel as [convert("L")] computes it (ITU-R 601-2
    luma in 16-bit fixed point). *)
Definition luma (r g b : Z) : Z :=
  Z.shiftr (r * 19595 + g * 38470 + b * 7471 + 32768) 16.

Definition to_L (p : pixel) : pixel :=
  match p with
  | Lum v => Lum v
  | Rgb r g b => Lum (luma r g b)
  end.

(** [image.convert("L")]: same size, every pixel replaced by its
    luminance. *)
Definition convert_L (im : image) : image :=
  {| img_mode := ModeL;
     img_width := img_width im;
     img_height := img_height im;
     img_rows := map (map to_L) (img_rows im) |}.

(** ** The program *)

(** [is_pixel_black]: strict comparison for an [int] pixel, non-strict
    comparison of each channel for a tuple. *)
Definition is_pixel_black (pixel : pixel) (black_threshold : Z) : bool :=
  match pixel with
  | Lum v => v <? black_threshold
  | Rgb r g b =>
      (r <=? black_threshold) && (g <=? black_threshold) && (b <=? black_threshold)
  end.

(** [all(is_pixel_black(pixel, black_threshold) for pixel in pixels)]. *)
Definition all_black (pixels : list pixel) (black_threshold : Z) : bool :=
  forallb (fun pixel => is_pixel_black pixel black_threshold) pixels.

(** The shape shared by the four loops: visit the indices in order; a line
    that is all black lets the loop [continue]; the first line that is not
    makes the function return at that index.  [None] means the loop ran to
    its end. *)
Fixpoint scan (line_all_black : Z -> result bool) (indices : list Z)
  : result (option Z) :=
  match indices with
  | [] => Ok None
  | i :: rest =>
      b <- line_all_black i ;;
      if b then scan line_all_black rest else Ok (Some i)
  end.

Definition detect_top_border (image : image) (black_threshold : Z) : result Z :=
  let '(width, height) := size image in
  stop <- scan (fun y =>
                  row <- crop image (0, y, width, y + 1) ;;
                  Ok (all_black (getdata row) black_threshold))
               (range height) ;;
  match stop with
  | Some y => Ok y
  | None => Ok height
  end.

Definition detect_bottom_border (image : image) (black_threshold : Z) : result Z :=
  let '(width, height) := size image in
  stop <- scan (fun y =>
                  row <- crop image (0, y, width, y + 1) ;;
                  Ok (all_black (getdata row) black_threshold))
               (range_down height) ;;
  match stop with
  | Some y => Ok (height - y - 1)
  | None => Ok height
  end.

Definition detect_left_border (image : image) (black_threshold : Z) : result Z :=
  let '(width, height) := size image in
  stop <- scan (fun x =>
                  col <- crop image (x, 0, x + 1, height) ;;
                  Ok (all_black (getdata col) black_threshold))
               (range width) ;;
  match stop with
  | Some x => Ok x
  | None => Ok width
  end.

Definition detect_right_border (image : image) (black_threshold : Z) : result Z :=
  let '(width, height) := size image in
  stop <- scan (fun x =>
                  col <- crop image (x, 0, x + 1, height) ;;
                  Ok (all_black (getdata col) black_threshold))
               (range_down width) ;;
  match stop with
  | Some x => Ok (width - x - 1)
  | None => Ok width
  end.

(** An image file as [Image.open] presents it: the file format and the
    decoded picture.  The same pair stands for the buffer [save] writes: the
    picture handed to the codec and the format it is asked to write.  The
    codec itself is outside the program; what opening such a buffer again
    gives is a hypothesis wherever a result is read again. *)
Record encoded : Type := Encoded {
  format : String.string;
  picture : image
}.

(** The four widths computed by [unletterbox]. *)
Record widths : Type := Widths {
  w_top : Z;
  w_bottom : Z;
  w_left : Z;
  w_right : Z
}.

(** The measuring part of [unletterbox]: the four scanners run on the
    grayscale copy, in the order top, bottom, left, right. *)
Definition borders (file : encoded) (black_threshold : Z) : result widths :=
  let image := picture file in
  let grayscale_image := convert_L image in
  top <- detect_top_border grayscale_image black_threshold ;;
  bottom <- detect_bottom_border grayscale_image black_threshold ;;
  left <- detect_left_border grayscale_image black_threshold ;;
  right <- detect_right_border grayscale_image black_threshold ;;
  Ok (Widths top bottom left right).

(** The box handed to the final [crop]:
    [(left, top, width - right, height - bottom)]. *)
Definition crop_box (image : image) (b : widths) : Z * Z * Z * Z :=
  let '(width, height) := size image in
  (w_left b, w_top b, width - w_right b, height - w_bottom b).

Definition unletterbox (file : encoded) (black_threshold : Z) : result encoded :=
  let image := picture file in
  b <- borders file black_threshold ;;
  cropped_img <- crop image (crop_box image b) ;;
  Ok {| format := format file; picture := cropped_img |}.

(** Every pixel of the picture equals 0: the grayscale value 0 or the
    triple [(0, 0, 0)]. *)
Definition is_zero_pixel (p : pixel) : bool :=
  match p with
  | Lum v => v =? 0
  | Rgb r g b => (r =? 0) && (g =? 0) && (b =? 0)
  end.

Definition all_zero (im : image) : bool :=
  forallb (forallb is_zero_pixel) (img_rows im).

(** ** Test images *)

Definition gray_image (rows : list (list Z)) : image :=
  {| img_mode := ModeL;
     img_width := length (hd [] rows);
     img_height := length rows;
     img_rows := map (map Lum) rows |}.

Definition rgb_image (rows : list (list (Z * Z * Z))) : image :=
  {| img_mode := ModeRGB;
     img_width := length (hd [] rows);
     img_height := length rows;
     img_rows := map (map (fun '(r, g, b) => Rgb r g b)) rows |}.

Definition png (im : image) : encoded :=
  {| format := "PNG"%string; picture := im |}.

(** ** Vocabulary of the properties *)

(** Whether the pixel at [(x, y)] counts as border at threshold [T]. *)
Definition black_at (im : image) (T x y : Z) : bool :=
  is_pixel_black (getpixel im x y) T.

(** A line is border when every pixel on it is; it has a non-border pixel
    when some pixel on it is not. *)
Definition row_is_border (im : image) (T y : Z) : Prop :=
  forall x, 0 <= x < Z.of_nat (img_width im) -> black_at im T x y = true.

Definition row_has_nonborder (im : image) (T y : Z) : Prop :=
  exists x, 0 <= x < Z.of_nat (img_width im) /\ black_at im T x y = false.

Definition col_is_border (im : image) (T x : Z) : Prop :=
  forall y, 0 <= y < Z.of_nat (img_height im) -> black_at im T x y = true.

Definition col_has_nonborder (im : image) (T x : Z) : Prop :=
  exists y, 0 <= y < Z.of_nat (img_height im) /\ black_at im T x y = false.

(** [n] is the count of consecutive border lines among [dim] lines, the
    lines being numbered from the edge the count starts at: the first [n]
    lines are border and, unless all [dim] lines were consumed, line [n]
    has a non-border pixel. *)
Definition counts_border_lines
  (is_border has_nonborder : Z -> Prop) (dim n : Z) : Prop :=
  0 <= n <= dim /\
  (forall i, 0 <= i < n -> is_border i) /\
  (n < dim -> has_nonborder n).

(** The tests the loops perform on line [y] (resp. [x]), as booleans. *)
Definition row_black (im : image) (T y : Z) : bool :=
  forallb (fun x => black_at im T x y) (range (Z.of_nat (img_width im))).

Definition col_black (im : image) (T x : Z) : bool :=
  forallb (fun y => black_at im T x y) (range (Z.of_nat (img_height im))).

(** The index at which each loop stops, turned into the value returned. *)
Definition top_width (im : image) (T : Z) : Z :=
  match find (fun y => negb (row_black im T y))
             (range (Z.of_nat (img_height im))) with
  | Some y => y
  | None => Z.of_nat (img_height im)
  end.

Definition bottom_width (im : image) (T : Z) : Z :=
  match find (fun y => negb (row_black im T y))
             (range_down (Z.of_nat (img_height im))) with
  | Some y => Z.of_nat (img_height im) - y - 1
  | None => Z.of_nat (img_height im)
  end.

Definition left_width (im : image) (T : Z) : Z :=
  match find (fun x => negb (col_black im T x))
             (range (Z.of_nat (img_width im))) with
  | Some x => x
  | None => Z.of_nat (img_width im)
  end.

Definition right_width (im : image) (T : Z) : Z :=
  match find (fun x => negb (col_black im T x))
             (range_down (Z.of_nat (img_width im))) with
  | Some x => Z.of_nat (img_width im) - x - 1
  | None => Z.of_nat (img_width im)
  end.

(** The image has the shape its size announces: as many rows as its
    height, each as long as its width. *)
Definition well_shaped (im : image) : bool :=
  (length (img_rows im) =? img_height im)%nat &&
  forallb (fun row => (length row =? img_width im)%nat) (img_rows im).

(** A pixel of the right kind for the mode, with 8-bit channels. *)
Definition pixel_ok (m : mode) (p : pixel) : bool :=
  match m, p with
  | ModeL, Lum v => (0 <=? v) && (v <=? 255)
  | ModeRGB, Rgb r g b =>
      (0 <=? r) && (r <=? 255) && (0 <=? g) && (g <=? 255) &&
      (0 <=? b) && (b <=? 255)
  | _, _ => false
  end.

(** A decoded image file: well shaped, at least one pixel, every pixel of
    the kind of the mode and within 0..255. *)
Definition decoded (im : image) : bool :=
  (0 <? img_width im)%nat && (0 <? img_height im)%nat &&
  well_shaped im &&
  forallb (forallb (pixel_ok (img_mode im))) (img_rows im).

(** The condition under which the box of the final crop is empty or
    inverted. *)
Definition degenerate (im : image) (b : widths) : Prop :=
  w_left b + w_right b >= Z.of_nat (img_width im) \/
  w_top b + w_bottom b >= Z.of_nat (img_height im).

(** The exception the specification names for that condition; nothing in
    [unboxing.py] defines or raises it. *)
Definition DegenerateGeometryError : exn := "DegenerateGeometryError"%string.

(** A 10x10 picture: a black ring two pixels wide around a white 6x6
    square. *)
Definition ring10 : image :=
  rgb_image (map (fun y => map (fun x =>
     if (2 <=? x) && (x <? 8) && (2 <=? y) && (y <? 8)
     then (255, 255, 255) else (0, 0, 0))
     (range 10)) (range 10)).

(** The white 6x6 square inside [ring10]. *)
Definition white6 : image :=
  rgb_image (map (fun _ => map (fun _ => (255, 255, 255)) (range 6)) (range 6)).

(** A 3x2 RGB picture whose every pixel is [(0, 0, 0)], and a 1x1 grayscale
    picture whose pixel is 0. *)
Definition black3x2 : image :=
  rgb_image [[(0, 0, 0); (0, 0, 0); (0, 0, 0)];
             [(0, 0, 0); (0, 0, 0); (0, 0, 0)]].

Definition black1x1 : image := gray_image [[0]].

(** A 2x2 grayscale picture with a bright pixel on every edge. *)
Definition checker2 : image := gray_image [[200; 0]; [0; 200]].

(** ** Paths and files

    The part of the batch code around [unletterbox]: the output path built
    by [process_with_your_function], the files it reads and writes, and the
    report of [compare_images]. *)

From Stdlib Require Ascii.
Import Ascii.AsciiSyntax.
Delimit Scope char_scope with char.

Definition sep : Ascii.ascii := "/"%char.

(** [os.path.basename(p)] on a POSIX system: what follows the last
    separator, [p[p.rfind('/') + 1:]].  [cur] is what was read since the
    last separator. *)
Fixpoint basename_from (cur p : String.string) : String.string :=
  match p with
  | String.EmptyString => cur
  | String.String c rest =>
      if Ascii.eqb c sep then basename_from String.EmptyString rest
      else basename_from (String.append cur (String.String c String.EmptyString)) rest
  end.

Definition basename (p : String.string) : String.string :=
  basename_from String.EmptyString p.

Definition startswith_sep (s : String.string) : bool :=
  match s with
  | String.EmptyString => false
  | String.String c _ => Ascii.eqb c sep
  end.

Fixpoint endswith_sep (s : String.string) : bool :=
  match s with
  | String.EmptyString => false
  | String.String c String.EmptyString => Ascii.eqb c sep
  | String.String _ rest => endswith_sep rest
  end.

(** [os.path.join(a, b)] on a POSIX system: [b] alone when it is absolute,
    [a + b] when [a] is empty or already ends with the separator, else
    [a + '/' + b]. *)
Definition join (a b : String.string) : String.string :=
  if startswith_sep b then b
  else if String.eqb a String.EmptyString || endswith_sep a then String.append a b
  else String.append a (String.String sep b).

(** What a path may hold: a directory, a file without content, a file whose
    bytes are not an image, or an encoded image. *)
Inductive file : Type :=
| Directory
| EmptyFile
| OtherFile
| ImageFile (e : encoded).

(** The files the program reads and writes, by path.  Two spellings of the
    path of one file are two keys: a property that tells the output file
    from the input file is stated for an output path that names no file
    beforehand. *)
Definition files : Type := String.string -> option file.

Definition write_file (fs : files) (path : String.string) (f : file) : files :=
  fun p => if String.eqb p path then Some f else fs p.

Definition FileNotFoundError : exn := "FileNotFoundError"%string.
Definition IsADirectoryError : exn := "IsADirectoryError"%string.
Definition UnidentifiedImageError : exn := "UnidentifiedImageError"%string.

(** [Image.open(path)]: fails on a missing path, on a directory and on
    bytes that are not an image. *)
Definition image_open (fs : files) (path : String.string) : result encoded :=
  match fs path with
  | None => Raise FileNotFoundError
  | Some Directory => Raise IsADirectoryError
  | Some EmptyFile => Raise UnidentifiedImageError
  | Some OtherFile => Raise UnidentifiedImageError
  | Some (ImageFile e) => Ok e
  end.

(** [unletterbox(file_path, black_threshold)] from the path: [Image.open],
    then the body. *)
Definition unletterbox_path (fs : files) (file_path : String.string)
           (black_threshold : Z) : result encoded :=
  image <- image_open fs file_path ;;
  unletterbox image black_threshold.

(** The lines the batch code prints. *)
Inductive message : Type :=
| Processed (output_path : String.string)
| ProcessingError (e : exn)
| ComparisonResults
| SizeMismatch (file_name : String.string) (size1 size2 : Z * Z)
| PixelDifferences (file_name : String.string) (diff : Z)
| NotFoundIn (file_name dir2 : String.string).

(** [process_with_your_function].  [open_wb] is the answer of the operating
    system to [open(output_path, "wb")]; when it succeeds the output file
    exists and is empty before [unletterbox] is evaluated.  Every exception
    is caught and printed. *)
Definition process_with_your_function
           (open_wb : String.string -> result unit) (fs : files)
           (input_file output_dir : String.string) (black_threshold : Z)
  : files * list message :=
  let output_path := join output_dir (basename input_file) in
  match open_wb output_path with
  | Raise e => (fs, [ProcessingError e])
  | Ok _ =>
      let fs := write_file fs output_path EmptyFile in
      match unletterbox_path fs input_file black_threshold with
      | Raise e => (fs, [ProcessingError e])
      | Ok bytes =>
          (write_file fs output_path (ImageFile bytes), [Processed output_path])
      end
  end.

(** [p1 != p2] on pixels is [negb (pixel_eqb p1 p2)]: an [int] and a tuple
    are never equal. *)
Definition pixel_eqb (p1 p2 : pixel) : bool :=
  match p1, p2 with
  | Lum v1, Lum v2 => v1 =? v2
  | Rgb r1 g1 b1, Rgb r2 g2 b2 => (r1 =? r2) && (g1 =? g2) && (b1 =? b2)
  | _, _ => false
  end.

(** [sum(1 for p1, p2 in zip(img1.getdata(), img2.getdata()) if p1 != p2)]. *)
Definition pixel_differences (img1 img2 : image) : Z :=
  Z.of_nat (length (filter (fun '(p1, p2) => negb (pixel_eqb p1 p2))
                           (combine (getdata img1) (getdata img2)))).

Definition size_eqb (s1 s2 : Z * Z) : bool :=
  (fst s1 =? fst s2) && (snd s1 =? snd s2).

(** The loop of [compare_images] over the names [os.listdir(dir1)] gave.
    An exception of [Image.open] ends the loop; what was printed before it
    stays printed. *)
Fixpoint compare_files (fs : files) (dir1 dir2 : String.string)
         (names : list String.string) : list message * result unit :=
  match names with
  | [] => ([], Ok tt)
  | file_name :: rest =>
      let path1 := join dir1 file_name in
      let path2 := join dir2 file_name in
      match fs path2 with
      | Some _ =>
          match image_open fs path1 with
          | Raise e => ([], Raise e)
          | Ok img1 =>
              match image_open fs path2 with
              | Raise e => ([], Raise e)
              | Ok img2 =>
                  let mismatch :=
                    if size_eqb (size (picture img1)) (size (picture img2))
                    then []
                    else [SizeMismatch file_name (size (picture img1))
                                       (size (picture img2))] in
                  let diff := pixel_differences (picture img1) (picture img2) in
                  let '(log, r) := compare_files fs dir1 dir2 rest in
                  (mismatch ++ PixelDifferences file_name diff :: log, r)
              end
          end
      | None =>
          let '(log, r) := compare_files fs dir1 dir2 rest in
          (NotFoundIn file_name dir2 :: log, r)
      end
  end.

(** [compare_images]; [listdir] is the answer of the operating system to
    [os.listdir]. *)
Definition compare_images
           (listdir : String.string -> result (list String.string))
           (fs : files) (dir1 dir2 : String.string)
  : list message * result unit :=
  match listdir dir1 with
  | Raise e => ([ComparisonResults], Raise e)
  | Ok names =>
      let '(log, r) := compare_files fs dir1 dir2 names in
      (ComparisonResults :: log, r)
  end.

(** The file a report line is the verdict on. *)
Definition verdict_on (m : message) : option String.string :=
  match m with
  | PixelDifferences file_name _ => Some file_name
  | NotFoundIn file_name _ => Some file_name
  | _ => None
  end.

Fixpoint verdicts (log : list message) : list String.string :=
  match log with
  | [] => []
  | m :: rest =>
      match verdict_on m with
      | Some file_name => file_name :: verdicts rest
      | None => verdicts rest
      end
  end.

(** No separator occurs in the string. *)
Fixpoint no_sep (s : String.string) : bool :=
  match s with
  | String.EmptyString => true
  | String.String c rest => negb (Ascii.eqb c sep) && no_sep rest
  end.

(** A file system for examples: the black 1x1 picture under [in/a.png],
    the ring picture under [in/r.png], nothing else; and a listing of the
    directory [in]. *)
Definition example_files : files :=
  fun p => if String.eqb p "in/a.png"%string then Some (ImageFile (png black1x1))
           else if String.eqb p "in/r.png"%string then Some (ImageFile (png ring10))
           else None.

Definition example_listdir (d : String.string) : result (list String.string) :=
  if String.eqb d "in"%string then Ok ["a.png"%string; "r.png"%string]
  else Raise FileNotFoundError.

Definition always_openable : String.string -> result unit := fun _ => Ok tt.

(** * Proofs *)

(** ** Ranges and the loop *)

Lemma in_range (n i : Z) : In i (range n) <-> 0 <= i < n.
Proof.
  unfold range. rewrite in_map_iff. split.
  - intros [k [<- Hk]]. apply in_seq in Hk. lia.
  - intros Hi. exists (Z.to_nat i). split; [lia|]. apply in_seq. lia.
Qed.

Lemma range_length (n : Z) : length (range n) = Z.to_nat n.
Proof. unfold range. now rewrite length_map, length_seq. Qed.

Lemma forallb_range (f : Z -> bool) (n : Z) :
  forallb f (range n) = true <-> forall i, 0 <= i < n -> f i = true.
Proof.
  rewrite forallb_forall. split; intros H i Hi; apply H; now apply in_range.
Qed.

Lemma forallb_range_false (f : Z -> bool) (n : Z) :
  forallb f (range n) = false <-> exists i, 0 <= i < n /\ f i = false.
Proof.
  split.
  - intros H. destruct (existsb (fun i => negb (f i)) (range n)) eqn:E.
    + apply existsb_exists in E as [i [Hi Hf]]. exists i. split.
      * now apply in_range.
      * now apply negb_true_iff.
    + exfalso. assert (forallb f (range n) = true); [|congruence].
      apply forallb_forall. intros i Hi.
      destruct (f i) eqn:Ef; [reflexivity|].
      assert (existsb (fun i => negb (f i)) (range n) = true); [|congruence].
      apply existsb_exists. exists i. split; [assumption|]. now rewrite Ef.
  - intros [i [Hi Hf]]. destruct (forallb f (range n)) eqn:E; [|reflexivity].
    rewrite forallb_range in E. rewrite E in Hf by assumption. discriminate.
Qed.

Lemma forallb_map_comp {A B : Type} (f : B -> bool) (g : A -> B) (l : list A) :
  forallb f (map g l) = forallb (fun a => f (g a)) l.
Proof. induction l as [|a l IH]; simpl; [reflexivity|]. now rewrite IH. Qed.

Lemma forallb_pointwise {A : Type} (f g : A -> bool) (l : list A) :
  (forall a, f a = g a) -> forallb f l = forallb g l.
Proof.
  intros E. induction l as [|a l IH]; simpl; [reflexivity|].
  now rewrite E, IH.
Qed.

Lemma scan_eval (test : Z -> result bool) (f : Z -> bool) (l : list Z) :
  (forall i, test i = Ok (f i)) ->
  scan test l = Ok (find (fun i => negb (f i)) l).
Proof.
  intros Ht. induction l as [|i l IH]; simpl; [reflexivity|].
  rewrite Ht. simpl. destruct (f i); simpl; [exact IH|reflexivity].
Qed.

Lemma find_seq_up (f : Z -> bool) (n s : nat) :
  let r := match find (fun i => negb (f i)) (map Z.of_nat (seq s n)) with
           | Some i => i
           | None => Z.of_nat (s + n)
           end in
  Z.of_nat s <= r <= Z.of_nat (s + n) /\
  (forall i, Z.of_nat s <= i < r -> f i = true) /\
  (r < Z.of_nat (s + n) -> f r = false).
Proof.
  revert s. induction n as [|n IH]; intros s; cbn [seq map find]; cbv zeta.
  - split; [lia|]. split; intros; lia.
  - destruct (f (Z.of_nat s)) eqn:Ef; cbn [negb].
    + pose proof (IH (S s)) as IH'. cbv zeta in IH'.
      replace (s + S n)%nat with (S s + n)%nat by lia.
      destruct IH' as [Hr [Hb Hn]]. split; [lia|]. split; [|exact Hn].
      intros i Hi. destruct (Z.eq_dec i (Z.of_nat s)) as [->|Hne];
        [assumption|]. apply Hb. lia.
    + split; [lia|]. split; [intros; lia|]. intros _. assumption.
Qed.

Lemma find_range_up (f : Z -> bool) (n : nat) :
  let r := match find (fun i => negb (f i)) (range (Z.of_nat n)) with
           | Some i => i
           | None => Z.of_nat n
           end in
  0 <= r <= Z.of_nat n /\
  (forall i, 0 <= i < r -> f i = true) /\
  (r < Z.of_nat n -> f r = false).
Proof.
  unfold range. rewrite Nat2Z.id. exact (find_seq_up f n 0).
Qed.

Lemma range_down_succ (n : nat) :
  range_down (Z.of_nat (S n)) = Z.of_nat n :: range_down (Z.of_nat n).
Proof.
  unfold range_down, range. rewrite !Nat2Z.id.
  rewrite seq_S, map_app, rev_app_distr. reflexivity.
Qed.

Lemma find_range_down (f : Z -> bool) (n : nat) :
  let r := match find (fun i => negb (f i)) (range_down (Z.of_nat n)) with
           | Some i => Z.of_nat n - i - 1
           | None => Z.of_nat n
           end in
  0 <= r <= Z.of_nat n /\
  (forall k, 0 <= k < r -> f (Z.of_nat n - 1 - k) = true) /\
  (r < Z.of_nat n -> f (Z.of_nat n - 1 - r) = false).
Proof.
  induction n as [|n IH].
  - cbn. split; [lia|]. split; intros; lia.
  - rewrite range_down_succ. cbn [find]. cbv zeta in IH |- *.
    assert (Hstep : forall k, 0 <= k -> k <> 0 ->
              Z.of_nat (S n) - 1 - k = Z.of_nat n - 1 - (k - 1)) by (intros; lia).
    assert (Hzero : Z.of_nat (S n) - 1 - 0 = Z.of_nat n) by lia.
    destruct (f (Z.of_nat n)) eqn:Ef; cbn [negb].
    + destruct (find (fun i => negb (f i)) (range_down (Z.of_nat n))) as [i|];
        destruct IH as [Hr [Hb Hn]].
      * split; [lia|]. split.
        -- intros k Hk. destruct (Z.eq_dec k 0) as [->|Hne].
           ++ rewrite Hzero. assumption.
           ++ rewrite Hstep by lia. apply Hb. lia.
        -- intros Hlt.
           replace (Z.of_nat (S n) - 1 - (Z.of_nat (S n) - i - 1))
             with (Z.of_nat n - 1 - (Z.of_nat n - i - 1)) by lia.
           apply Hn. lia.
      * split; [lia|]. split; [|intros; lia].
        intros k Hk. destruct (Z.eq_dec k 0) as [->|Hne].
        -- rewrite Hzero. assumption.
        -- rewrite Hstep by lia. apply Hb. lia.
    + split; [lia|]. split; [intros; lia|]. intros _.
      replace (Z.of_nat (S n) - 1 - (Z.of_nat (S n) - Z.of_nat n - 1))
        with (Z.of_nat n) by lia.
      assumption.
Qed.

(** ** The scanners *)

Lemma concat_map_singleton {A B : Type} (g : A -> B) (l : list A) :
  concat (map (fun a => [g a]) l) = map g l.
Proof. induction l as [|a l IH]; simpl; [reflexivity|]. now rewrite IH. Qed.

Lemma range_one : range 1 = [0].
Proof. reflexivity. Qed.

Lemma row_test (im : image) (T y : Z) :
  (row <- crop im (0, y, Z.of_nat (img_width im), y + 1) ;;
   Ok (all_black (getdata row) T)) = Ok (row_black im T y).
Proof.
  unfold crop.
  replace (Z.of_nat (img_width im) <? 0) with false by (symmetry; apply Z.ltb_ge; lia).
  replace (y + 1 <? y) with false by (symmetry; apply Z.ltb_ge; lia).
  cbn [bind]. unfold getdata. cbn [img_rows].
  replace (y + 1 - y) with 1 by lia. rewrite Z.sub_0_r, range_one.
  cbn [map concat]. rewrite app_nil_r.
  unfold all_black, row_black. rewrite forallb_map_comp.
  f_equal. apply forallb_pointwise.
  intros x. unfold black_at. now rewrite Z.add_0_l, Z.add_0_r.
Qed.

Lemma col_test (im : image) (T x : Z) :
  (col <- crop im (x, 0, x + 1, Z.of_nat (img_height im)) ;;
   Ok (all_black (getdata col) T)) = Ok (col_black im T x).
Proof.
  unfold crop.
  replace (x + 1 <? x) with false by (symmetry; apply Z.ltb_ge; lia).
  replace (Z.of_nat (img_height im) <? 0) with false by (symmetry; apply Z.ltb_ge; lia).
  cbn [bind]. unfold getdata. cbn [img_rows].
  replace (x + 1 - x) with 1 by lia. rewrite Z.sub_0_r, range_one.
  cbn [map].
  rewrite (concat_map_singleton (fun j => getpixel im (x + 0) (0 + j))).
  unfold all_black, col_black. rewrite forallb_map_comp.
  f_equal. apply forallb_pointwise.
  intros y. unfold black_at. now rewrite Z.add_0_l, Z.add_0_r.
Qed.

Lemma detect_top_border_eval (im : image) (T : Z) :
  detect_top_border im T = Ok (top_width im T).
Proof.
  unfold detect_top_border, top_width, size.
  rewrite (scan_eval _ (row_black im T)) by apply row_test.
  cbn [bind]. now destruct find.
Qed.

Lemma detect_bottom_border_eval (im : image) (T : Z) :
  detect_bottom_border im T = Ok (bottom_width im T).
Proof.
  unfold detect_bottom_border, bottom_width, size.
  rewrite (scan_eval _ (row_black im T)) by apply row_test.
  cbn [bind]. now destruct find.
Qed.

Lemma detect_left_border_eval (im : image) (T : Z) :
  detect_left_border im T = Ok (left_width im T).
Proof.
  unfold detect_left_border, left_width, size.
  rewrite (scan_eval _ (col_black im T)) by apply col_test.
  cbn [bind]. now destruct find.
Qed.

Lemma detect_right_border_eval (im : image) (T : Z) :
  detect_right_border im T = Ok (right_width im T).
Proof.
  unfold detect_right_border, right_width, size.
  rewrite (scan_eval _ (col_black im T)) by apply col_test.
  cbn [bind]. now destruct find.
Qed.

Lemma row_black_true (im : image) (T y : Z) :
  row_black im T y = true <-> row_is_border im T y.
Proof. apply forallb_range. Qed.

Lemma row_black_false (im : image) (T y : Z) :
  row_black im T y = false <-> row_has_nonborder im T y.
Proof. apply forallb_range_false. Qed.

Lemma col_black_true (im : image) (T x : Z) :
  col_black im T x = true <-> col_is_border im T x.
Proof. apply forallb_range. Qed.

Lemma col_black_false (im : image) (T x : Z) :
  col_black im T x = false <-> col_has_nonborder im T x.
Proof. apply forallb_range_false. Qed.

Lemma top_width_counts (im : image) (T : Z) :
  counts_border_lines (row_is_border im T) (row_has_nonborder im T)
    (Z.of_nat (img_height im)) (top_width im T).
Proof.
  destruct (find_range_up (row_black im T) (img_height im)) as [Hr [Hb Hn]].
  split; [exact Hr|]. split.
  - intros i Hi. apply row_black_true, Hb, Hi.
  - intros Hlt. apply row_black_false, Hn, Hlt.
Qed.

Lemma bottom_width_counts (im : image) (T : Z) :
  counts_border_lines
    (fun i => row_is_border im T (Z.of_nat (img_height im) - 1 - i))
    (fun i => row_has_nonborder im T (Z.of_nat (img_height im) - 1 - i))
    (Z.of_nat (img_height im)) (bottom_width im T).
Proof.
  destruct (find_range_down (row_black im T) (img_height im)) as [Hr [Hb Hn]].
  split; [exact Hr|]. split.
  - intros i Hi. apply row_black_true, Hb, Hi.
  - intros Hlt. apply row_black_false, Hn, Hlt.
Qed.

Lemma left_width_counts (im : image) (T : Z) :
  counts_border_lines (col_is_border im T) (col_has_nonborder im T)
    (Z.of_nat (img_width im)) (left_width im T).
Proof.
  destruct (find_range_up (col_black im T) (img_width im)) as [Hr [Hb Hn]].
  split; [exact Hr|]. split.
  - intros i Hi. apply col_black_true, Hb, Hi.
  - intros Hlt. apply col_black_false, Hn, Hlt.
Qed.

Lemma right_width_counts (im : image) (T : Z) :
  counts_border_lines
    (fun i => col_is_border im T (Z.of_nat (img_width im) - 1 - i))
    (fun i => col_has_nonborder im T (Z.of_nat (img_width im) - 1 - i))
    (Z.of_nat (img_width im)) (right_width im T).
Proof.
  destruct (find_range_down (col_black im T) (img_width im)) as [Hr [Hb Hn]].
  split; [exact Hr|]. split.
  - intros i Hi. apply col_black_true, Hb, Hi.
  - intros Hlt. apply col_black_false, Hn, Hlt.
Qed.

Lemma row_border_xor (im : image) (T y : Z) :
  row_is_border im T y -> row_has_nonborder im T y -> False.
Proof. intros Hb [x [Hx Hn]]. rewrite (Hb x Hx) in Hn. discriminate. Qed.

Lemma col_border_xor (im : image) (T x : Z) :
  col_is_border im T x -> col_has_nonborder im T x -> False.
Proof. intros Hb [y [Hy Hn]]. rewrite (Hb y Hy) in Hn. discriminate. Qed.

Lemma counts_all_border (B N : Z -> Prop) (dim n : Z) :
  (forall i, B i -> N i -> False) ->
  counts_border_lines B N dim n ->
  (forall i, 0 <= i < dim -> B i) -> n = dim.
Proof.
  intros Hx [Hr [_ Hn]] Hall.
  destruct (Z.eq_dec n dim) as [|Hne]; [assumption|].
  exfalso. apply (Hx n); [apply Hall|apply Hn]; lia.
Qed.

Lemma counts_le (B1 N1 B2 N2 : Z -> Prop) (dim n1 n2 : Z) :
  (forall i, B1 i -> N2 i -> False) ->
  counts_border_lines B1 N1 dim n1 ->
  counts_border_lines B2 N2 dim n2 ->
  n1 <= n2.
Proof.
  intros Hx [Hr1 [Hb1 _]] [Hr2 [_ Hn2]].
  destruct (Z_le_gt_dec n1 n2) as [|Hgt]; [assumption|].
  exfalso. apply (Hx n2); [apply Hb1|apply Hn2]; lia.
Qed.

Lemma counts_opposite (B N : Z -> Prop) (dim n m y : Z) :
  (forall i, B i -> N i -> False) ->
  counts_border_lines B N dim n ->
  counts_border_lines (fun i => B (dim - 1 - i)) (fun i => N (dim - 1 - i)) dim m ->
  0 <= y < dim -> N y ->
  n <= y /\ m <= dim - 1 - y.
Proof.
  intros Hx [Hr1 [Hb1 _]] [Hr2 [Hb2 _]] Hy HN. split.
  - destruct (Z_le_gt_dec n y) as [|Hgt]; [assumption|].
    exfalso. apply (Hx y); [apply Hb1; lia|assumption].
  - destruct (Z_le_gt_dec m (dim - 1 - y)) as [|Hgt]; [assumption|].
    exfalso. apply (Hx y); [|assumption].
    replace y with (dim - 1 - (dim - 1 - y)) by lia. apply Hb2. lia.
Qed.

Lemma is_pixel_black_mono (p : pixel) (T1 T2 : Z) :
  T1 <= T2 -> is_pixel_black p T1 = true -> is_pixel_black p T2 = true.
Proof.
  intros HT. destruct p as [v|r g b]; simpl.
  - rewrite !Z.ltb_lt. lia.
  - rewrite !andb_true_iff, !Z.leb_le. lia.
Qed.

(** ** The pixel predicate *)

(** C1: [is_pixel_black] holds of a grayscale pixel iff its luminance is
    strictly below the threshold, and of an RGB pixel iff each of the three
    channels is at most the threshold; so for a threshold [T] in 0..255 the
    colour pixel [(T, T, T)] is border and the grayscale pixel [T] is not. *)
Theorem is_pixel_black_asymmetry :
  (forall v T, is_pixel_black (Lum v) T = true <-> v < T) /\
  (forall r g b T,
      is_pixel_black (Rgb r g b) T = true <-> r <= T /\ g <= T /\ b <= T) /\
  (forall T, 0 <= T <= 255 ->
      is_pixel_black (Rgb T T T) T = true /\ is_pixel_black (Lum T) T = false).
Proof.
  split; [|split].
  - intros v T. simpl. apply Z.ltb_lt.
  - intros r g b T. simpl. rewrite !andb_true_iff, !Z.leb_le. tauto.
  - intros T _. simpl. rewrite Z.leb_refl, Z.ltb_irrefl. split; reflexivity.
Qed.

Lemma is_pixel_black_asymmetry_witness :
  is_pixel_black (Rgb 255 255 255) 255 = true /\
  is_pixel_black (Lum 255) 255 = false.
Proof.
  apply (proj2 (proj2 is_pixel_black_asymmetry) 255). lia.
Defined.

(** ** The edge scanners *)

(** C2: each scanner returns the count of consecutive fully-border lines
    starting at its edge (rows from the top, rows from the bottom, columns
    from the left, columns from the right), the line just after them having
    a non-border pixel; the bottom and right counts are measured from the
    far edge; when every line is border the count is the full dimension. *)
Theorem scanners_count_border_lines (im : image) (T : Z) :
  let W := Z.of_nat (img_width im) in
  let H := Z.of_nat (img_height im) in
  (exists top, detect_top_border im T = Ok top /\
     counts_border_lines (row_is_border im T) (row_has_nonborder im T) H top) /\
  (exists bottom, detect_bottom_border im T = Ok bottom /\
     counts_border_lines (fun i => row_is_border im T (H - 1 - i))
                         (fun i => row_has_nonborder im T (H - 1 - i))
                         H bottom) /\
  (exists left, detect_left_border im T = Ok left /\
     counts_border_lines (col_is_border im T) (col_has_nonborder im T) W left) /\
  (exists right, detect_right_border im T = Ok right /\
     counts_border_lines (fun i => col_is_border im T (W - 1 - i))
                         (fun i => col_has_nonborder im T (W - 1 - i))
                         W right) /\
  ((forall y, 0 <= y < H -> row_is_border im T y) ->
   detect_top_border im T = Ok H /\ detect_bottom_border im T = Ok H) /\
  ((forall x, 0 <= x < W -> col_is_border im T x) ->
   detect_left_border im T = Ok W /\ detect_right_border im T = Ok W).
Proof.
  intros W H.
  rewrite detect_top_border_eval, detect_bottom_border_eval,
    detect_left_border_eval, detect_right_border_eval.
  pose proof (top_width_counts im T) as Ht.
  pose proof (bottom_width_counts im T) as Hb.
  pose proof (left_width_counts im T) as Hl.
  pose proof (right_width_counts im T) as Hr.
  fold H in Ht, Hb. fold W in Hl, Hr.
  repeat (split; [eexists; split; [reflexivity|assumption]|]).
  split.
  - intros Hall. split; f_equal.
    + eapply counts_all_border; [apply row_border_xor|exact Ht|exact Hall].
    + eapply counts_all_border; [|exact Hb|].
      * intros i. apply row_border_xor.
      * intros i Hi. apply Hall. lia.
  - intros Hall. split; f_equal.
    + eapply counts_all_border; [apply col_border_xor|exact Hl|exact Hall].
    + eapply counts_all_border; [|exact Hr|].
      * intros i. apply col_border_xor.
      * intros i Hi. apply Hall. lia.
Qed.

Lemma scanners_count_border_lines_witness :
  detect_top_border (gray_image [[0; 0]; [0; 0]; [0; 0]]) 1 = Ok 3 /\
  detect_bottom_border (gray_image [[0; 0]; [0; 0]; [0; 0]]) 1 = Ok 3.
Proof.
  apply (scanners_count_border_lines (gray_image [[0; 0]; [0; 0]; [0; 0]]) 1).
  intros y Hy. apply row_black_true.
  change (Z.of_nat (img_height (gray_image [[0; 0]; [0; 0]; [0; 0]])))
    with 3 in Hy.
  assert (E : y = 0 \/ y = 1 \/ y = 2) by lia.
  destruct E as [->|[->| ->]]; reflexivity.
Defined.

(** C8: each of the four border widths is monotone in the threshold. *)
Theorem border_widths_monotone (im : image) (T1 T2 : Z) :
  T1 <= T2 ->
  (exists n1 n2, detect_top_border im T1 = Ok n1 /\
                 detect_top_border im T2 = Ok n2 /\ n1 <= n2) /\
  (exists n1 n2, detect_bottom_border im T1 = Ok n1 /\
                 detect_bottom_border im T2 = Ok n2 /\ n1 <= n2) /\
  (exists n1 n2, detect_left_border im T1 = Ok n1 /\
                 detect_left_border im T2 = Ok n2 /\ n1 <= n2) /\
  (exists n1 n2, detect_right_border im T1 = Ok n1 /\
                 detect_right_border im T2 = Ok n2 /\ n1 <= n2).
Proof.
  intros HT.
  rewrite !detect_top_border_eval, !detect_bottom_border_eval,
    !detect_left_border_eval, !detect_right_border_eval.
  assert (Hrow : forall y, row_is_border im T1 y ->
                           row_has_nonborder im T2 y -> False).
  { intros y Hb [x [Hx Hn]]. specialize (Hb x Hx). unfold black_at in *.
    apply (is_pixel_black_mono _ _ _ HT) in Hb. congruence. }
  assert (Hcol : forall x, col_is_border im T1 x ->
                           col_has_nonborder im T2 x -> False).
  { intros x Hb [y [Hy Hn]]. specialize (Hb y Hy). unfold black_at in *.
    apply (is_pixel_black_mono _ _ _ HT) in Hb. congruence. }
  repeat split.
  - do 2 eexists. repeat split.
    eapply counts_le; [|apply (top_width_counts im T1)|apply (top_width_counts im T2)].
    exact Hrow.
  - do 2 eexists. repeat split.
    eapply counts_le;
      [|apply (bottom_width_counts im T1)|apply (bottom_width_counts im T2)].
    intros i. apply Hrow.
  - do 2 eexists. repeat split.
    eapply counts_le; [|apply (left_width_counts im T1)|apply (left_width_counts im T2)].
    exact Hcol.
  - do 2 eexists. repeat split.
    eapply counts_le;
      [|apply (right_width_counts im T1)|apply (right_width_counts im T2)].
    intros i. apply Hcol.
Qed.

Lemma border_widths_monotone_witness :
  exists n1 n2, detect_top_border ring10 0 = Ok n1 /\
                detect_top_border ring10 300 = Ok n2 /\ n1 <= n2.
Proof.
  apply (border_widths_monotone ring10 0 300). lia.
Defined.

(** C9: when some row has a non-border pixel the top and bottom widths sum
    to less than the height, and when some column has one the left and
    right widths sum to less than the width. *)
Theorem opposite_borders_leave_room (im : image) (T : Z) :
  ((exists y, 0 <= y < Z.of_nat (img_height im) /\ row_has_nonborder im T y) ->
   exists top bottom,
     detect_top_border im T = Ok top /\
     detect_bottom_border im T = Ok bottom /\
     top + bottom < Z.of_nat (img_height im)) /\
  ((exists x, 0 <= x < Z.of_nat (img_width im) /\ col_has_nonborder im T x) ->
   exists left right,
     detect_left_border im T = Ok left /\
     detect_right_border im T = Ok right /\
     left + right < Z.of_nat (img_width im)).
Proof.
  rewrite detect_top_border_eval, detect_bottom_border_eval,
    detect_left_border_eval, detect_right_border_eval.
  split.
  - intros [y [Hy HN]]. do 2 eexists. repeat split.
    destruct (counts_opposite _ _ _ _ _ y (row_border_xor im T)
                (top_width_counts im T) (bottom_width_counts im T) Hy HN).
    lia.
  - intros [x [Hx HN]]. do 2 eexists. repeat split.
    destruct (counts_opposite _ _ _ _ _ x (col_border_xor im T)
                (left_width_counts im T) (right_width_counts im T) Hx HN).
    lia.
Qed.

Lemma opposite_borders_leave_room_witness :
  exists top bottom,
    detect_top_border ring10 0 = Ok top /\
    detect_bottom_border ring10 0 = Ok bottom /\
    top + bottom < 10.
Proof.
  apply (proj1 (opposite_borders_leave_room ring10 0)).
  change (Z.of_nat (img_height ring10)) with 10.
  exists 4. split; [lia|]. unfold row_has_nonborder.
  change (Z.of_nat (img_width ring10)) with 10.
  exists 4. split; [lia|]. reflexivity.
Defined.

(** ** Pixels of converted and cropped images *)

Lemma nth_map_range {A : Type} (f : Z -> A) (n i : Z) (d : A) :
  0 <= i < n -> nth (Z.to_nat i) (map f (range n)) d = f i.
Proof.
  intros Hi. unfold range. rewrite map_map.
  rewrite (nth_indep _ d (f (Z.of_nat 0))) by (rewrite length_map, length_seq; lia).
  rewrite (map_nth (fun k => f (Z.of_nat k))), seq_nth by lia.
  f_equal. lia.
Qed.

Lemma map_nth_range {A : Type} (l : list A) (d : A) :
  map (fun i => nth (Z.to_nat i) l d) (range (Z.of_nat (length l))) = l.
Proof.
  apply (nth_ext _ _ d d).
  - now rewrite length_map, range_length, Nat2Z.id.
  - intros k Hk. rewrite length_map, range_length, Nat2Z.id in Hk.
    replace k with (Z.to_nat (Z.of_nat k)) at 1 by lia.
    rewrite nth_map_range by lia. now rewrite Nat2Z.id.
Qed.

Lemma to_L_zero (m : mode) : to_L (zero_pixel m) = Lum 0.
Proof. destruct m; reflexivity. Qed.

Lemma getpixel_convert_L (im : image) (x y : Z) :
  getpixel (convert_L im) x y = to_L (getpixel im x y).
Proof.
  unfold getpixel. cbn [convert_L img_mode img_width img_height img_rows zero_pixel].
  destruct ((0 <=? x) && (x <? Z.of_nat (img_width im)) &&
            (0 <=? y) && (y <? Z.of_nat (img_height im))).
  - change (@nil pixel) with (map to_L []) at 1. rewrite map_nth.
    rewrite <- (to_L_zero (img_mode im)). now rewrite map_nth.
  - now rewrite to_L_zero.
Qed.

Lemma black_at_convert_L (im : image) (T x y : Z) :
  black_at (convert_L im) T x y = is_pixel_black (to_L (getpixel im x y)) T.
Proof. unfold black_at. now rewrite getpixel_convert_L. Qed.

Lemma crop_ok (im : image) (x0 y0 x1 y1 : Z) :
  x0 <= x1 -> y0 <= y1 ->
  crop im (x0, y0, x1, y1) =
  Ok {| img_mode := img_mode im;
        img_width := Z.to_nat (x1 - x0);
        img_height := Z.to_nat (y1 - y0);
        img_rows :=
          map (fun j => map (fun i => getpixel im (x0 + i) (y0 + j))
                            (range (x1 - x0)))
              (range (y1 - y0)) |}.
Proof.
  intros Hx Hy. unfold crop.
  replace (x1 <? x0) with false by (symmetry; apply Z.ltb_ge; lia).
  replace (y1 <? y0) with false by (symmetry; apply Z.ltb_ge; lia).
  reflexivity.
Qed.

Lemma crop_inverted (im : image) (x0 y0 x1 y1 : Z) :
  x1 < x0 \/ y1 < y0 -> crop im (x0, y0, x1, y1) = Raise ValueError.
Proof.
  intros Hinv. unfold crop. destruct (x1 <? x0) eqn:Ex; [reflexivity|].
  destruct (y1 <? y0) eqn:Ey; [reflexivity|].
  apply Z.ltb_ge in Ex, Ey. lia.
Qed.

Lemma crop_inv (im out : image) (x0 y0 x1 y1 : Z) :
  crop im (x0, y0, x1, y1) = Ok out ->
  x0 <= x1 /\ y0 <= y1 /\
  out = {| img_mode := img_mode im;
           img_width := Z.to_nat (x1 - x0);
           img_height := Z.to_nat (y1 - y0);
           img_rows :=
             map (fun j => map (fun i => getpixel im (x0 + i) (y0 + j))
                               (range (x1 - x0)))
                 (range (y1 - y0)) |}.
Proof.
  intros Hc.
  destruct (Z_lt_ge_dec x1 x0) as [Hx|Hx];
    [rewrite crop_inverted in Hc by lia; discriminate|].
  destruct (Z_lt_ge_dec y1 y0) as [Hy|Hy];
    [rewrite crop_inverted in Hc by lia; discriminate|].
  rewrite crop_ok in Hc by lia. injection Hc as <-.
  repeat split; lia.
Qed.

Lemma getpixel_crop (im out : image) (x0 y0 x1 y1 i j : Z) :
  crop im (x0, y0, x1, y1) = Ok out ->
  0 <= i < x1 - x0 -> 0 <= j < y1 - y0 ->
  getpixel out i j = getpixel im (x0 + i) (y0 + j).
Proof.
  intros Hc Hi Hj. apply crop_inv in Hc as [Hx [Hy ->]].
  unfold getpixel at 1. cbn [img_mode img_width img_height img_rows].
  replace ((0 <=? i) && (i <? Z.of_nat (Z.to_nat (x1 - x0))) &&
           (0 <=? j) && (j <? Z.of_nat (Z.to_nat (y1 - y0)))) with true.
  - rewrite (nth_map_range (fun j => map _ _)) by lia.
    now rewrite nth_map_range by lia.
  - symmetry. rewrite !andb_true_iff, !Z.leb_le, !Z.ltb_lt. lia.
Qed.

Lemma well_shaped_spec (im : image) :
  well_shaped im = true ->
  length (img_rows im) = img_height im /\
  forall row, In row (img_rows im) -> length row = img_width im.
Proof.
  unfold well_shaped. rewrite andb_true_iff, forallb_forall, Nat.eqb_eq.
  intros [Hh Hw]. split; [assumption|].
  intros row Hrow. apply Nat.eqb_eq, Hw, Hrow.
Qed.

Lemma crop_whole (im : image) :
  well_shaped im = true ->
  crop im (0, 0, Z.of_nat (img_width im), Z.of_nat (img_height im)) = Ok im.
Proof.
  intros Hws. apply well_shaped_spec in Hws as [Hh Hw].
  rewrite crop_ok by lia. f_equal.
  destruct im as [m w h rows]. cbn [img_mode img_width img_height img_rows] in *.
  rewrite !Z.sub_0_r, !Nat2Z.id. f_equal.
  transitivity (map (fun j => nth (Z.to_nat j) rows [])
                    (range (Z.of_nat (length rows))));
    [|apply map_nth_range].
  rewrite Hh. apply map_ext_in. intros j Hj. apply in_range in Hj.
  assert (Hrow : length (nth (Z.to_nat j) rows []) = w).
  { apply Hw, nth_In. lia. }
  transitivity (map (fun i => nth (Z.to_nat i) (nth (Z.to_nat j) rows [])
                                  (zero_pixel m))
                    (range (Z.of_nat (length (nth (Z.to_nat j) rows [])))));
    [|apply map_nth_range].
  rewrite Hrow. apply map_ext_in. intros i Hi. apply in_range in Hi.
  unfold getpixel. cbn [img_mode img_width img_height img_rows].
  rewrite !Z.add_0_l.
  replace ((0 <=? i) && (i <? Z.of_nat w) && (0 <=? j) && (j <? Z.of_nat h))
    with true; [reflexivity|].
  symmetry. rewrite !andb_true_iff, !Z.leb_le, !Z.ltb_lt. lia.
Qed.

Lemma crop_well_shaped (im out : image) (box : Z * Z * Z * Z) :
  crop im box = Ok out -> well_shaped out = true.
Proof.
  destruct box as [[[x0 y0] x1] y1]. intros Hc.
  apply crop_inv in Hc as [Hx [Hy ->]].
  unfold well_shaped. cbn [img_width img_height img_rows].
  rewrite length_map, range_length, Nat.eqb_refl. cbn [andb].
  apply forallb_forall. intros row Hrow.
  apply in_map_iff in Hrow as [j [<- _]].
  now rewrite length_map, range_length, Nat.eqb_refl.
Qed.

(** ** The entry point *)

Lemma borders_eval (file : encoded) (T : Z) :
  borders file T =
  Ok {| w_top := top_width (convert_L (picture file)) T;
        w_bottom := bottom_width (convert_L (picture file)) T;
        w_left := left_width (convert_L (picture file)) T;
        w_right := right_width (convert_L (picture file)) T |}.
Proof.
  unfold borders.
  rewrite detect_top_border_eval, detect_bottom_border_eval,
    detect_left_border_eval, detect_right_border_eval.
  reflexivity.
Qed.

Lemma unletterbox_eval (file : encoded) (T : Z) :
  unletterbox file T =
  (cropped_img <-
     crop (picture file)
          (left_width (convert_L (picture file)) T,
           top_width (convert_L (picture file)) T,
           Z.of_nat (img_width (picture file))
             - right_width (convert_L (picture file)) T,
           Z.of_nat (img_height (picture file))
             - bottom_width (convert_L (picture file)) T) ;;
   Ok {| format := format file; picture := cropped_img |}).
Proof. unfold unletterbox. rewrite borders_eval. reflexivity. Qed.

(** A non-border pixel lies inside the box cut out by the four widths. *)
Lemma nonborder_inside (g : image) (T x y : Z) :
  0 <= x < Z.of_nat (img_width g) ->
  0 <= y < Z.of_nat (img_height g) ->
  black_at g T x y = false ->
  left_width g T <= x < Z.of_nat (img_width g) - right_width g T /\
  top_width g T <= y < Z.of_nat (img_height g) - bottom_width g T.
Proof.
  intros Hx Hy Hn.
  destruct (counts_opposite _ _ _ _ _ y (row_border_xor g T)
              (top_width_counts g T) (bottom_width_counts g T) Hy) as [Ht Hb];
    [exists x; now split|].
  destruct (counts_opposite _ _ _ _ _ x (col_border_xor g T)
              (left_width_counts g T) (right_width_counts g T) Hx) as [Hl Hr];
    [exists y; now split|].
  lia.
Qed.

Lemma top_width_zero (g : image) (T : Z) :
  row_has_nonborder g T 0 -> top_width g T = 0.
Proof.
  intros HN. destruct (top_width_counts g T) as [Hr [Hb _]].
  destruct (Z.eq_dec (top_width g T) 0) as [|Hne]; [assumption|].
  exfalso. apply (row_border_xor g T 0); [apply Hb; lia|assumption].
Qed.

Lemma bottom_width_zero (g : image) (T : Z) :
  row_has_nonborder g T (Z.of_nat (img_height g) - 1) -> bottom_width g T = 0.
Proof.
  intros HN. destruct (bottom_width_counts g T) as [Hr [Hb _]].
  destruct (Z.eq_dec (bottom_width g T) 0) as [|Hne]; [assumption|].
  exfalso. apply (row_border_xor g T (Z.of_nat (img_height g) - 1));
    [|assumption].
  rewrite <- (Z.sub_0_r (Z.of_nat (img_height g) - 1)). apply Hb. lia.
Qed.

Lemma left_width_zero (g : image) (T : Z) :
  col_has_nonborder g T 0 -> left_width g T = 0.
Proof.
  intros HN. destruct (left_width_counts g T) as [Hr [Hb _]].
  destruct (Z.eq_dec (left_width g T) 0) as [|Hne]; [assumption|].
  exfalso. apply (col_border_xor g T 0); [apply Hb; lia|assumption].
Qed.

Lemma right_width_zero (g : image) (T : Z) :
  col_has_nonborder g T (Z.of_nat (img_width g) - 1) -> right_width g T = 0.
Proof.
  intros HN. destruct (right_width_counts g T) as [Hr [Hb _]].
  destruct (Z.eq_dec (right_width g T) 0) as [|Hne]; [assumption|].
  exfalso. apply (col_border_xor g T (Z.of_nat (img_width g) - 1));
    [|assumption].
  rewrite <- (Z.sub_0_r (Z.of_nat (img_width g) - 1)). apply Hb. lia.
Qed.

(** With all four widths zero the final crop takes the whole picture. *)
Lemma unletterbox_no_border (file : encoded) (T : Z) :
  well_shaped (picture file) = true ->
  borders file T = Ok (Widths 0 0 0 0) ->
  unletterbox file T = Ok file.
Proof.
  intros Hws Hb. unfold unletterbox. rewrite Hb. cbn [bind].
  unfold crop_box, size. cbn [w_top w_bottom w_left w_right].
  rewrite !Z.sub_0_r, crop_whole by assumption.
  now destruct file.
Qed.

Lemma borders_zero (file : encoded) (T : Z) :
  let g := convert_L (picture file) in
  row_has_nonborder g T 0 ->
  row_has_nonborder g T (Z.of_nat (img_height g) - 1) ->
  col_has_nonborder g T 0 ->
  col_has_nonborder g T (Z.of_nat (img_width g) - 1) ->
  borders file T = Ok (Widths 0 0 0 0).
Proof.
  intros g H1 H2 H3 H4. rewrite borders_eval. fold g.
  now rewrite top_width_zero, bottom_width_zero, left_width_zero,
    right_width_zero.
Qed.

(** ** What is left after the crop has no border *)

Section Cropped.

(** [g] is the measured view of the picture, [g'] the measured view of
    what the crop keeps of it. *)
Variables (g g' : image) (T : Z).

Local Abbreviation W := (Z.of_nat (img_width g)).
Local Abbreviation H := (Z.of_nat (img_height g)).
Local Abbreviation t := (top_width g T).
Local Abbreviation b := (bottom_width g T).
Local Abbreviation l := (left_width g T).
Local Abbreviation r := (right_width g T).

Hypothesis width_kept : Z.of_nat (img_width g') = W - r - l.
Hypothesis height_kept : Z.of_nat (img_height g') = H - b - t.
Hypothesis pixels_kept :
  forall i j, 0 <= i < W - r - l -> 0 <= j < H - b - t ->
              black_at g' T i j = black_at g T (l + i) (t + j).

Lemma kept_top_zero : top_width g' T = 0.
Proof.
  destruct (top_width_counts g' T) as [Hr [Hb _]].
  destruct (Z.eq_dec (top_width g' T) 0) as [|Hne]; [assumption|].
  exfalso.
  destruct (top_width_counts g T) as [Hrt [_ Hn]].
  destruct (bottom_width_counts g T) as [Hrb _].
  destruct Hn as [x [Hx Hnb]]; [lia|].
  destruct (nonborder_inside g T x t) as [Hin _]; [assumption|lia|assumption|].
  assert (Hrow : row_is_border g' T 0) by (apply Hb; lia).
  specialize (Hrow (x - l)). rewrite pixels_kept in Hrow by lia.
  replace (l + (x - l)) with x in Hrow by lia.
  rewrite Z.add_0_r in Hrow. rewrite Hrow in Hnb by lia. discriminate.
Qed.

Lemma kept_bottom_zero : bottom_width g' T = 0.
Proof.
  destruct (bottom_width_counts g' T) as [Hr [Hb _]].
  destruct (Z.eq_dec (bottom_width g' T) 0) as [|Hne]; [assumption|].
  exfalso.
  destruct (top_width_counts g T) as [Hrt _].
  destruct (bottom_width_counts g T) as [Hrb [_ Hn]].
  destruct Hn as [x [Hx Hnb]]; [lia|].
  destruct (nonborder_inside g T x (H - 1 - b)) as [Hin _];
    [assumption|lia|assumption|].
  assert (Hrow : row_is_border g' T (Z.of_nat (img_height g') - 1 - 0))
    by (apply Hb; lia).
  specialize (Hrow (x - l)). rewrite pixels_kept in Hrow by lia.
  replace (l + (x - l)) with x in Hrow by lia.
  replace (t + (Z.of_nat (img_height g') - 1 - 0)) with (H - 1 - b)
    in Hrow by lia.
  rewrite Hrow in Hnb by lia. discriminate.
Qed.

Lemma kept_left_zero : left_width g' T = 0.
Proof.
  destruct (left_width_counts g' T) as [Hr [Hb _]].
  destruct (Z.eq_dec (left_width g' T) 0) as [|Hne]; [assumption|].
  exfalso.
  destruct (left_width_counts g T) as [Hrl [_ Hn]].
  destruct (right_width_counts g T) as [Hrr _].
  destruct Hn as [y [Hy Hnb]]; [lia|].
  destruct (nonborder_inside g T l y) as [_ Hin]; [lia|assumption|assumption|].
  assert (Hcol : col_is_border g' T 0) by (apply Hb; lia).
  specialize (Hcol (y - t)). rewrite pixels_kept in Hcol by lia.
  replace (t + (y - t)) with y in Hcol by lia.
  rewrite Z.add_0_r in Hcol. rewrite Hcol in Hnb by lia. discriminate.
Qed.

Lemma kept_right_zero : right_width g' T = 0.
Proof.
  destruct (right_width_counts g' T) as [Hr [Hb _]].
  destruct (Z.eq_dec (right_width g' T) 0) as [|Hne]; [assumption|].
  exfalso.
  destruct (left_width_counts g T) as [Hrl _].
  destruct (right_width_counts g T) as [Hrr [_ Hn]].
  destruct Hn as [y [Hy Hnb]]; [lia|].
  destruct (nonborder_inside g T (W - 1 - r) y) as [_ Hin];
    [lia|assumption|assumption|].
  assert (Hcol : col_is_border g' T (Z.of_nat (img_width g') - 1 - 0))
    by (apply Hb; lia).
  specialize (Hcol (y - t)). rewrite pixels_kept in Hcol by lia.
  replace (t + (y - t)) with y in Hcol by lia.
  replace (l + (Z.of_nat (img_width g') - 1 - 0)) with (W - 1 - r)
    in Hcol by lia.
  rewrite Hcol in Hnb by lia. discriminate.
Qed.

End Cropped.

Lemma unletterbox_inv (file out : encoded) (T : Z) :
  unletterbox file T = Ok out ->
  format out = format file /\
  crop (picture file)
       (left_width (convert_L (picture file)) T,
        top_width (convert_L (picture file)) T,
        Z.of_nat (img_width (picture file))
          - right_width (convert_L (picture file)) T,
        Z.of_nat (img_height (picture file))
          - bottom_width (convert_L (picture file)) T) = Ok (picture out).
Proof.
  rewrite unletterbox_eval. intros Hu.
  destruct (crop _ _) as [cropped|e]; cbn [bind] in Hu; [|discriminate].
  injection Hu as <-. split; reflexivity.
Qed.

Lemma unletterbox_output_border_free (file out : encoded) (T : Z) :
  unletterbox file T = Ok out ->
  borders out T = Ok (Widths 0 0 0 0).
Proof.
  intros Hu. apply unletterbox_inv in Hu as [_ Hc].
  rewrite borders_eval.
  pose proof (crop_inv _ _ _ _ _ _ Hc) as [Hx [Hy Hout]].
  assert (Hw : Z.of_nat (img_width (convert_L (picture out))) =
               Z.of_nat (img_width (convert_L (picture file)))
               - right_width (convert_L (picture file)) T
               - left_width (convert_L (picture file)) T).
  { rewrite Hout. cbn [convert_L img_width]. lia. }
  assert (Hh : Z.of_nat (img_height (convert_L (picture out))) =
               Z.of_nat (img_height (convert_L (picture file)))
               - bottom_width (convert_L (picture file)) T
               - top_width (convert_L (picture file)) T).
  { rewrite Hout. cbn [convert_L img_height]. lia. }
  assert (Hp : forall i j,
             0 <= i < Z.of_nat (img_width (convert_L (picture file)))
                      - right_width (convert_L (picture file)) T
                      - left_width (convert_L (picture file)) T ->
             0 <= j < Z.of_nat (img_height (convert_L (picture file)))
                      - bottom_width (convert_L (picture file)) T
                      - top_width (convert_L (picture file)) T ->
             black_at (convert_L (picture out)) T i j =
             black_at (convert_L (picture file)) T
               (left_width (convert_L (picture file)) T + i)
               (top_width (convert_L (picture file)) T + j)).
  { intros i j Hi Hj. rewrite !black_at_convert_L.
    cbn [convert_L img_width img_height] in Hi, Hj.
    now rewrite (getpixel_crop _ _ _ _ _ _ i j Hc) by lia. }
  rewrite (kept_top_zero _ _ _ Hw Hh Hp), (kept_bottom_zero _ _ _ Hw Hh Hp),
    (kept_left_zero _ _ _ Hw Hh Hp), (kept_right_zero _ _ _ Hw Hh Hp).
  reflexivity.
Qed.

(** C3: the four widths are measured on the grayscale copy only, the crop
    box is [(left, top, width - right, height - bottom)], and the result
    keeps the file format and the mode of the original and carries, at
    every position, the pixel of the original it was cut from. *)
Theorem unletterbox_crops_original (file out : encoded) (T : Z) :
  unletterbox file T = Ok out ->
  let im := picture file in
  let g := convert_L im in
  let W := Z.of_nat (img_width im) in
  let H := Z.of_nat (img_height im) in
  (forall file', convert_L (picture file') = g ->
                 borders file' T = borders file T) /\
  exists top bottom left right,
    detect_top_border g T = Ok top /\
    detect_bottom_border g T = Ok bottom /\
    detect_left_border g T = Ok left /\
    detect_right_border g T = Ok right /\
    crop im (left, top, W - right, H - bottom) = Ok (picture out) /\
    format out = format file /\
    img_mode (picture out) = img_mode im /\
    size (picture out) = (W - right - left, H - bottom - top) /\
    forall i j,
      0 <= i < W - right - left -> 0 <= j < H - bottom - top ->
      0 <= left + i < W /\ 0 <= top + j < H /\
      getpixel (picture out) i j = getpixel im (left + i) (top + j).
Proof.
  intros Hu im g W H. split.
  - intros file' Hg. rewrite !borders_eval. fold im g. now rewrite Hg.
  - apply unletterbox_inv in Hu as [Hf Hc]. fold im g W H in Hc.
    exists (top_width g T), (bottom_width g T),
      (left_width g T), (right_width g T).
    rewrite detect_top_border_eval, detect_bottom_border_eval,
      detect_left_border_eval, detect_right_border_eval.
    repeat (split; [reflexivity|]).
    split; [exact Hc|]. split; [exact Hf|].
    pose proof (crop_inv _ _ _ _ _ _ Hc) as [Hx [Hy Hout]].
    destruct (top_width_counts g T) as [Ht _].
    destruct (bottom_width_counts g T) as [Hb _].
    destruct (left_width_counts g T) as [Hl _].
    destruct (right_width_counts g T) as [Hr _].
    cbn [g convert_L img_width img_height] in Ht, Hb, Hl, Hr.
    fold im g W H in Ht, Hb, Hl, Hr.
    split; [now rewrite Hout|]. split.
    + rewrite Hout. unfold size. cbn [img_width img_height]. f_equal; lia.
    + intros i j Hi Hj. split; [lia|]. split; [lia|].
      apply (getpixel_crop _ _ _ _ _ _ i j Hc); lia.
Qed.

Lemma unletterbox_crops_original_witness :
  exists top bottom left right,
    detect_top_border (convert_L ring10) 1 = Ok top /\
    detect_bottom_border (convert_L ring10) 1 = Ok bottom /\
    detect_left_border (convert_L ring10) 1 = Ok left /\
    detect_right_border (convert_L ring10) 1 = Ok right /\
    crop ring10 (left, top, 10 - right, 10 - bottom) = Ok white6.
Proof.
  destruct (unletterbox_crops_original (png ring10) (png white6) 1 eq_refl)
    as [_ [top [bottom [left [right [Ht [Hb [Hl [Hr [Hc _]]]]]]]]]].
  exists top, bottom, left, right.
  split; [exact Ht|]. split; [exact Hb|]. split; [exact Hl|].
  split; [exact Hr|exact Hc].
Defined.

(** C6: when the first and the last row and the first and the last column
    each hold a non-border pixel at threshold [T] (in the view that is
    measured), the four widths are 0 and the result is the original. *)
Theorem border_free_image_unchanged (file : encoded) (T : Z) :
  let g := convert_L (picture file) in
  well_shaped (picture file) = true ->
  row_has_nonborder g T 0 ->
  row_has_nonborder g T (Z.of_nat (img_height g) - 1) ->
  col_has_nonborder g T 0 ->
  col_has_nonborder g T (Z.of_nat (img_width g) - 1) ->
  borders file T = Ok (Widths 0 0 0 0) /\ unletterbox file T = Ok file.
Proof.
  intros g Hws H1 H2 H3 H4.
  assert (Hb : borders file T = Ok (Widths 0 0 0 0))
    by (apply borders_zero; assumption).
  split; [exact Hb|]. now apply unletterbox_no_border.
Qed.

Lemma border_free_image_unchanged_witness :
  borders (png checker2) 10 = Ok (Widths 0 0 0 0) /\
  unletterbox (png checker2) 10 = Ok (png checker2).
Proof.
  apply (border_free_image_unchanged (png checker2) 10).
  - reflexivity.
  - exists 0. split; [cbn; lia|reflexivity].
  - exists 1. split; [cbn; lia|reflexivity].
  - exists 0. split; [cbn; lia|reflexivity].
  - exists 1. split; [cbn; lia|reflexivity].
Defined.

(** C7: a picture with no border left (all four widths 0) is a fixed point:
    [unletterbox] returns it unchanged.  The picture [unletterbox] cuts out
    is such a picture: when a second call at the same threshold opens a file
    whose decoded picture is the one that was cut out, it measures four
    widths of 0 and returns that file unchanged. *)
Theorem unletterbox_idempotent (T : Z) :
  (forall file,
      well_shaped (picture file) = true ->
      (0 < img_width (picture file))%nat ->
      (0 < img_height (picture file))%nat ->
      borders file T = Ok (Widths 0 0 0 0) ->
      unletterbox file T = Ok file) /\
  (forall file out again,
      (0 < img_width (picture file))%nat ->
      (0 < img_height (picture file))%nat ->
      unletterbox file T = Ok out ->
      picture again = picture out ->
      borders again T = Ok (Widths 0 0 0 0) /\
      unletterbox again T = Ok again).
Proof.
  split.
  - intros file Hws _ _ Hb. now apply unletterbox_no_border.
  - intros file out again _ _ Hu Hpic.
    assert (Hb : borders again T = Ok (Widths 0 0 0 0)).
    { rewrite borders_eval, Hpic, <- borders_eval.
      eapply unletterbox_output_border_free. exact Hu. }
    split; [exact Hb|]. apply unletterbox_no_border; [|exact Hb].
    rewrite Hpic. apply unletterbox_inv in Hu as [_ Hc].
    eapply crop_well_shaped. exact Hc.
Qed.

Lemma unletterbox_idempotent_witness :
  unletterbox (png checker2) 10 = Ok (png checker2) /\
  borders (Encoded "BMP"%string white6) 1 = Ok (Widths 0 0 0 0) /\
  unletterbox (Encoded "BMP"%string white6) 1 = Ok (Encoded "BMP"%string white6).
Proof.
  split.
  - apply (proj1 (unletterbox_idempotent 10) (png checker2));
      first [reflexivity | vm_compute; lia].
  - apply (proj2 (unletterbox_idempotent 1) (png ring10) (png white6)
                 (Encoded "BMP"%string white6));
      first [reflexivity | vm_compute; lia].
Defined.

(** ** The default threshold *)

Lemma luma_bounds (r g b : Z) :
  0 <= r <= 255 -> 0 <= g <= 255 -> 0 <= b <= 255 ->
  0 <= luma r g b <= 255.
Proof.
  intros Hr Hg Hb. unfold luma. rewrite Z.shiftr_div_pow2 by lia.
  change (2 ^ 16) with 65536. split.
  - apply Z.div_pos; lia.
  - assert (Hlt : (r * 19595 + g * 38470 + b * 7471 + 32768) / 65536 < 256)
      by (apply Z.div_lt_upper_bound; lia).
    lia.
Qed.

Lemma pixel_ok_to_L (m : mode) (p : pixel) :
  pixel_ok m p = true -> exists v, to_L p = Lum v /\ 0 <= v <= 255.
Proof.
  destruct m, p as [v|r g b]; simpl; try discriminate.
  - rewrite andb_true_iff, !Z.leb_le. intros Hv. exists v. split; [reflexivity|lia].
  - rewrite !andb_true_iff, !Z.leb_le. intros Hc. exists (luma r g b).
    split; [reflexivity|]. apply luma_bounds; lia.
Qed.

Lemma pixel_ok_zero (m : mode) : pixel_ok m (zero_pixel m) = true.
Proof. destruct m; reflexivity. Qed.

Lemma decoded_spec (im : image) :
  decoded im = true ->
  (0 < img_width im)%nat /\ (0 < img_height im)%nat /\
  well_shaped im = true /\
  forall row, In row (img_rows im) ->
  forall p, In p row -> pixel_ok (img_mode im) p = true.
Proof.
  unfold decoded. rewrite !andb_true_iff, !Nat.ltb_lt, forallb_forall.
  intros [[[Hw Hh] Hws] Hok]. repeat split; try assumption.
  intros row Hrow p Hp. specialize (Hok row Hrow).
  rewrite forallb_forall in Hok. now apply Hok.
Qed.

Lemma getpixel_ok (im : image) (x y : Z) :
  decoded im = true -> pixel_ok (img_mode im) (getpixel im x y) = true.
Proof.
  intros Hd. apply decoded_spec in Hd as [_ [_ [Hws Hok]]].
  apply well_shaped_spec in Hws as [Hh Hw].
  unfold getpixel.
  destruct ((0 <=? x) && (x <? Z.of_nat (img_width im)) &&
            (0 <=? y) && (y <? Z.of_nat (img_height im))) eqn:E;
    [|apply pixel_ok_zero].
  rewrite !andb_true_iff, !Z.leb_le, !Z.ltb_lt in E.
  assert (Hrow : In (nth (Z.to_nat y) (img_rows im) []) (img_rows im))
    by (apply nth_In; lia).
  apply (Hok _ Hrow). apply nth_In. rewrite (Hw _ Hrow). lia.
Qed.

Lemma getpixel_convert_L_lum (im : image) (x y : Z) :
  exists v, getpixel (convert_L im) x y = Lum v.
Proof.
  rewrite getpixel_convert_L. destruct (getpixel im x y) as [v|r g b].
  - now exists v.
  - now exists (luma r g b).
Qed.

Lemma nothing_black_at_zero (im : image) (x y : Z) :
  decoded im = true -> black_at (convert_L im) 0 x y = false.
Proof.
  intros Hd. rewrite black_at_convert_L.
  destruct (pixel_ok_to_L _ _ (getpixel_ok im x y Hd)) as [v [-> Hv]].
  simpl. apply Z.ltb_ge. lia.
Qed.

(** C10: [unletterbox] runs the four scanners on the grayscale copy, whose
    pixels are all single integers, so only the strict comparison is used;
    with the default threshold 0 no pixel of a decoded picture is border,
    the four widths are 0 and the picture comes back whole. *)
Theorem default_threshold_crops_nothing (file : encoded) :
  let g := convert_L (picture file) in
  (forall T, exists top bottom left right,
      detect_top_border g T = Ok top /\
      detect_bottom_border g T = Ok bottom /\
      detect_left_border g T = Ok left /\
      detect_right_border g T = Ok right /\
      borders file T = Ok (Widths top bottom left right)) /\
  img_mode g = ModeL /\
  (forall T x y, exists v,
      getpixel g x y = Lum v /\ black_at g T x y = (v <? T)) /\
  (decoded (picture file) = true ->
   (forall x y, black_at g 0 x y = false) /\
   borders file 0 = Ok (Widths 0 0 0 0) /\
   unletterbox file 0 = Ok file).
Proof.
  intros g. split; [|split; [reflexivity|split]].
  - intros T. rewrite borders_eval. fold g.
    rewrite detect_top_border_eval, detect_bottom_border_eval,
      detect_left_border_eval, detect_right_border_eval.
    do 4 eexists. repeat split.
  - intros T x y. destruct (getpixel_convert_L_lum (picture file) x y) as [v Hv].
    fold g in Hv. exists v. split; [exact Hv|].
    unfold black_at. now rewrite Hv.
  - intros Hd.
    assert (Hnone : forall x y, black_at g 0 x y = false)
      by (intros x y; now apply nothing_black_at_zero).
    split; [exact Hnone|].
    pose proof (decoded_spec _ Hd) as [Hw [Hh [Hws _]]].
    assert (Hb : borders file 0 = Ok (Widths 0 0 0 0)).
    { apply borders_zero; cbn [convert_L img_width img_height].
      - exists 0. split; [cbn [convert_L img_width]; lia|apply Hnone].
      - exists 0. split; [cbn [convert_L img_width]; lia|apply Hnone].
      - exists 0. split; [cbn [convert_L img_height]; lia|apply Hnone].
      - exists 0. split; [cbn [convert_L img_height]; lia|apply Hnone]. }
    split; [exact Hb|]. now apply unletterbox_no_border.
Qed.

Lemma default_threshold_crops_nothing_witness :
  (forall x y, black_at (convert_L black3x2) 0 x y = false) /\
  borders (png black3x2) 0 = Ok (Widths 0 0 0 0) /\
  unletterbox (png black3x2) 0 = Ok (png black3x2).
Proof.
  apply (default_threshold_crops_nothing (png black3x2)). reflexivity.
Defined.

(** ** Degenerate geometry *)

Lemma degenerate_all_black (g : image) (T : Z) :
  left_width g T + right_width g T >= Z.of_nat (img_width g) \/
  top_width g T + bottom_width g T >= Z.of_nat (img_height g) ->
  forall x y, 0 <= x < Z.of_nat (img_width g) ->
              0 <= y < Z.of_nat (img_height g) ->
              black_at g T x y = true.
Proof.
  intros Hdeg x y Hx Hy. destruct (black_at g T x y) eqn:E; [reflexivity|].
  pose proof (nonborder_inside g T x y Hx Hy E). lia.
Qed.

Lemma all_black_widths (g : image) (T : Z) :
  (forall x y, 0 <= x < Z.of_nat (img_width g) ->
               0 <= y < Z.of_nat (img_height g) ->
               black_at g T x y = true) ->
  top_width g T = Z.of_nat (img_height g) /\
  bottom_width g T = Z.of_nat (img_height g) /\
  left_width g T = Z.of_nat (img_width g) /\
  right_width g T = Z.of_nat (img_width g).
Proof.
  intros Hall. repeat split.
  - eapply counts_all_border;
      [apply row_border_xor|apply top_width_counts|].
    intros y Hy x Hx. now apply Hall.
  - eapply counts_all_border; [|apply bottom_width_counts|].
    + intros i. apply row_border_xor.
    + intros i Hi x Hx. apply Hall; lia.
  - eapply counts_all_border;
      [apply col_border_xor|apply left_width_counts|].
    intros x Hx y Hy. now apply Hall.
  - eapply counts_all_border; [|apply right_width_counts|].
    + intros i. apply col_border_xor.
    + intros i Hi y Hy. apply Hall; lia.
Qed.

(** The claim C4 as written fails: on a 1x1 black picture with threshold 1
    the four widths are 1, the box is inverted, and what reaches the caller
    is the [ValueError] of [crop], not a [DegenerateGeometryError]. *)
Lemma degenerate_geometry_not_reported :
  borders (png black1x1) 1 = Ok (Widths 1 1 1 1) /\
  degenerate (picture (png black1x1)) (Widths 1 1 1 1) /\
  unletterbox (png black1x1) 1 = Raise ValueError /\
  unletterbox (png black1x1) 1 <> Raise DegenerateGeometryError.
Proof.
  split; [reflexivity|]. split; [left; cbn; lia|].
  split; [reflexivity|]. discriminate.
Qed.

(** C4, amended: when [left + right >= width] or [top + bottom >= height]
    on a picture with at least one row or column, every width equals its
    full dimension and [unletterbox] hands the inverted box
    [(width, height, 0, 0)] to [crop] without a check of its own: the
    caller gets the [ValueError] of [crop]; a [DegenerateGeometryError] is
    never raised. *)
Theorem degenerate_geometry_left_to_crop (file : encoded) (T : Z) (b : widths) :
  borders file T = Ok b ->
  degenerate (picture file) b ->
  (0 < img_width (picture file) \/ 0 < img_height (picture file))%nat ->
  let im := picture file in
  let W := Z.of_nat (img_width im) in
  let H := Z.of_nat (img_height im) in
  b = Widths H H W W /\
  crop_box im b = (W, H, W - W, H - H) /\
  unletterbox file T = Raise ValueError /\
  unletterbox file T <> Raise DegenerateGeometryError.
Proof.
  intros Hb Hdeg Hsome im W H.
  assert (Hw : b = Widths H H W W).
  { rewrite borders_eval in Hb. injection Hb as <-.
    unfold degenerate in Hdeg. cbn [w_top w_bottom w_left w_right] in Hdeg.
    pose proof (degenerate_all_black (convert_L (picture file)) T Hdeg) as Hall.
    apply all_black_widths in Hall as [-> [-> [-> ->]]]. reflexivity. }
  assert (Hu : unletterbox file T = Raise ValueError).
  { unfold unletterbox. rewrite Hb, Hw. fold im. cbn [bind].
    unfold crop_box, size. cbn [w_top w_bottom w_left w_right]. fold W H.
    fold im in Hsome. rewrite crop_inverted by lia. reflexivity. }
  split; [exact Hw|]. split.
  - rewrite Hw. reflexivity.
  - split; [exact Hu|]. rewrite Hu. discriminate.
Qed.

Lemma degenerate_geometry_left_to_crop_witness :
  Widths 1 1 1 1 = Widths 1 1 1 1 /\
  crop_box black1x1 (Widths 1 1 1 1) = (1, 1, 1 - 1, 1 - 1) /\
  unletterbox (png black1x1) 1 = Raise ValueError /\
  unletterbox (png black1x1) 1 <> Raise DegenerateGeometryError.
Proof.
  apply (degenerate_geometry_left_to_crop (png black1x1) 1 (Widths 1 1 1 1)).
  - reflexivity.
  - left. cbn. lia.
  - left. cbn. lia.
Defined.

(** ** The all-zero picture *)

(** The claim C5 as written fails: for the 3x2 picture whose every pixel is
    [(0, 0, 0)], [unletterbox] with threshold 0 measures four widths of 0,
    not 2, 2, 3, 3: the grayscale copy is tested with the strict
    comparison, and [0 < 0] is false. *)
Lemma all_zero_picture_threshold_zero :
  all_zero black3x2 = true /\
  borders (png black3x2) 0 = Ok (Widths 0 0 0 0) /\
  borders (png black3x2) 0 <> Ok (Widths 2 2 3 3).
Proof. split; [reflexivity|]. split; [reflexivity|discriminate]. Qed.

Lemma is_zero_pixel_to_L (p : pixel) :
  is_zero_pixel p = true -> to_L p = Lum 0.
Proof.
  destruct p as [v|r g b]; simpl.
  - rewrite Z.eqb_eq. now intros ->.
  - rewrite !andb_true_iff, !Z.eqb_eq. now intros [[-> ->] ->].
Qed.

Lemma is_zero_pixel_zero (m : mode) : is_zero_pixel (zero_pixel m) = true.
Proof. destruct m; reflexivity. Qed.

Lemma all_zero_getpixel (im : image) (x y : Z) :
  all_zero im = true -> is_zero_pixel (getpixel im x y) = true.
Proof.
  intros Hz. unfold all_zero in Hz. rewrite forallb_forall in Hz.
  unfold getpixel.
  destruct ((0 <=? x) && (x <? Z.of_nat (img_width im)) &&
            (0 <=? y) && (y <? Z.of_nat (img_height im)));
    [|apply is_zero_pixel_zero].
  destruct (Nat.lt_ge_cases (Z.to_nat y) (length (img_rows im))) as [Hy|Hy].
  - assert (Hrow : forallb is_zero_pixel (nth (Z.to_nat y) (img_rows im) []) = true)
      by (apply Hz, nth_In, Hy).
    rewrite forallb_forall in Hrow.
    destruct (Nat.lt_ge_cases (Z.to_nat x)
                (length (nth (Z.to_nat y) (img_rows im) []))) as [Hx|Hx].
    + apply Hrow, nth_In, Hx.
    + rewrite nth_overflow by exact Hx. apply is_zero_pixel_zero.
  - rewrite (nth_overflow (img_rows im)) by exact Hy.
    rewrite nth_overflow by (simpl; lia). apply is_zero_pixel_zero.
Qed.

(** C5, amended: for a picture in which every pixel equals 0, processed
    with a threshold [T >= 1], all four widths equal the full dimension:
    top = bottom = height and left = right = width. *)
Theorem all_zero_picture_positive_threshold (file : encoded) (T : Z) :
  all_zero (picture file) = true ->
  1 <= T ->
  borders file T =
    Ok (Widths (Z.of_nat (img_height (picture file)))
               (Z.of_nat (img_height (picture file)))
               (Z.of_nat (img_width (picture file)))
               (Z.of_nat (img_width (picture file)))).
Proof.
  intros Hz HT. rewrite borders_eval.
  assert (Hall : forall x y,
             0 <= x < Z.of_nat (img_width (convert_L (picture file))) ->
             0 <= y < Z.of_nat (img_height (convert_L (picture file))) ->
             black_at (convert_L (picture file)) T x y = true).
  { intros x y _ _. rewrite black_at_convert_L.
    rewrite (is_zero_pixel_to_L _ (all_zero_getpixel _ x y Hz)).
    simpl. apply Z.ltb_lt. lia. }
  apply all_black_widths in Hall as [-> [-> [-> ->]]]. reflexivity.
Qed.

Lemma all_zero_picture_positive_threshold_witness :
  borders (png black3x2) 1 = Ok (Widths 2 2 3 3).
Proof.
  apply (all_zero_picture_positive_threshold (png black3x2) 1).
  - reflexivity.
  - lia.
Defined.

(** * Further properties of the measuring and cropping code *)

(** Closes a bound [a <= i < b] between numerals after evaluation. *)
Ltac in_bounds := vm_compute; split; [discriminate|reflexivity].

(** ** The crop box is the bounding box of the non-border pixels *)

Lemma black_at_mono (g : image) (T1 T2 x y : Z) :
  T1 <= T2 -> black_at g T1 x y = true -> black_at g T2 x y = true.
Proof. intros HT. unfold black_at. now apply is_pixel_black_mono. Qed.

Lemma counts_unique (B N : Z -> Prop) (dim n m : Z) :
  (forall i, B i -> N i -> False) ->
  counts_border_lines B N dim n ->
  counts_border_lines B N dim m ->
  n = m.
Proof.
  intros Hx Hn Hm.
  pose proof (counts_le _ _ _ _ _ _ _ Hx Hn Hm).
  pose proof (counts_le _ _ _ _ _ _ _ Hx Hm Hn).
  lia.
Qed.

(** X1: What [unletterbox] cuts away is border: every non-border pixel of the
    measured view lies inside the crop box; and the box is tight: as soon as
    one pixel is non-border, the first and last row and the first and last
    column of the box each hold a non-border pixel. *)
Theorem crop_box_is_bounding_box (file : encoded) (T : Z) :
  let g := convert_L (picture file) in
  let W := Z.of_nat (img_width (picture file)) in
  let H := Z.of_nat (img_height (picture file)) in
  exists b,
    borders file T = Ok b /\
    (forall x y, 0 <= x < W -> 0 <= y < H -> black_at g T x y = false ->
                 w_left b <= x < W - w_right b /\
                 w_top b <= y < H - w_bottom b) /\
    ((exists x y, 0 <= x < W /\ 0 <= y < H /\ black_at g T x y = false) ->
     row_has_nonborder g T (w_top b) /\
     row_has_nonborder g T (H - 1 - w_bottom b) /\
     col_has_nonborder g T (w_left b) /\
     col_has_nonborder g T (W - 1 - w_right b)).
Proof.
  intros g W H. eexists. split; [apply borders_eval|].
  cbn [w_top w_bottom w_left w_right]. fold g. split.
  - intros x y Hx Hy Hn. now apply nonborder_inside.
  - intros [x [y [Hx [Hy Hn]]]].
    pose proof (nonborder_inside g T x y Hx Hy Hn) as [Hcol Hrow].
    cbn [g convert_L img_width img_height] in Hcol, Hrow. fold g W H in Hcol, Hrow.
    destruct (top_width_counts g T) as [_ [_ Ht]].
    destruct (bottom_width_counts g T) as [_ [_ Hb]].
    destruct (left_width_counts g T) as [_ [_ Hl]].
    destruct (right_width_counts g T) as [_ [_ Hr]].
    cbn [g convert_L img_width img_height] in Ht, Hb, Hl, Hr.
    fold g W H in Ht, Hb, Hl, Hr.
    destruct (top_width_counts g T) as [[Ht0 _] _].
    destruct (bottom_width_counts g T) as [[Hb0 _] _].
    destruct (left_width_counts g T) as [[Hl0 _] _].
    destruct (right_width_counts g T) as [[Hr0 _] _].
    repeat split; [apply Ht|apply Hb|apply Hl|apply Hr]; lia.
Qed.

Lemma crop_box_is_bounding_box_witness :
  row_has_nonborder (convert_L ring10) 1 2 /\
  row_has_nonborder (convert_L ring10) 1 (10 - 1 - 2) /\
  col_has_nonborder (convert_L ring10) 1 2 /\
  col_has_nonborder (convert_L ring10) 1 (10 - 1 - 2).
Proof.
  destruct (crop_box_is_bounding_box (png ring10) 1) as [b [Hb [_ Htight]]].
  injection Hb as <-. apply Htight.
  exists 4, 4. split; [in_bounds|]. split; [in_bounds|reflexivity].
Defined.

(** ** When [unletterbox] succeeds *)

Lemma unletterbox_all_black (file : encoded) (T : Z) :
  (forall x y, 0 <= x < Z.of_nat (img_width (picture file)) ->
               0 <= y < Z.of_nat (img_height (picture file)) ->
               black_at (convert_L (picture file)) T x y = true) ->
  unletterbox file T =
    (if (img_width (picture file) =? 0)%nat && (img_height (picture file) =? 0)%nat
     then Ok {| format := format file;
                picture := {| img_mode := img_mode (picture file);
                              img_width := 0;
                              img_height := 0;
                              img_rows := [] |} |}
     else Raise ValueError).
Proof.
  intros Hall. rewrite unletterbox_eval.
  apply (all_black_widths (convert_L (picture file)) T) in Hall
    as [-> [-> [-> ->]]].
  cbn [convert_L img_width img_height].
  destruct (img_width (picture file) =? 0)%nat eqn:Ew;
    [destruct (img_height (picture file) =? 0)%nat eqn:Eh|]; cbn [andb].
  - apply Nat.eqb_eq in Ew, Eh. rewrite Ew, Eh. reflexivity.
  - apply Nat.eqb_neq in Eh. rewrite crop_inverted by lia. reflexivity.
  - apply Nat.eqb_neq in Ew. rewrite crop_inverted by lia. reflexivity.
Qed.

(** X2: [unletterbox] returns a picture with at least one pixel exactly when
    some pixel of the measured view is non-border. *)
Theorem unletterbox_succeeds_iff_nonborder (file : encoded) (T : Z) :
  let g := convert_L (picture file) in
  (exists x y, 0 <= x < Z.of_nat (img_width (picture file)) /\
               0 <= y < Z.of_nat (img_height (picture file)) /\
               black_at g T x y = false) <->
  (exists out, unletterbox file T = Ok out /\
               (0 < img_width (picture out))%nat /\
               (0 < img_height (picture out))%nat).
Proof.
  intros g. split.
  - intros [x [y [Hx [Hy Hn]]]].
    pose proof (nonborder_inside g T x y Hx Hy Hn) as [Hcol Hrow].
    cbn [g convert_L img_width img_height] in Hcol, Hrow. fold g in Hcol, Hrow.
    rewrite unletterbox_eval. fold g. rewrite crop_ok by lia. cbn [bind].
    eexists. split; [reflexivity|]. cbn [picture img_width img_height]. lia.
  - intros [out [Hu [Hw Hh]]]. apply unletterbox_inv in Hu as [_ Hc].
    fold g in Hc. apply crop_inv in Hc as [Hx [Hy Hout]].
    rewrite Hout in Hw, Hh. cbn [img_width img_height] in Hw, Hh.
    destruct (left_width_counts g T) as [Hl0 [_ Hl]].
    destruct (top_width_counts g T) as [Ht0 _].
    destruct (right_width_counts g T) as [Hr0 _].
    destruct (bottom_width_counts g T) as [Hb0 _].
    cbn [g convert_L img_width img_height] in Hl0, Hl, Ht0, Hr0, Hb0.
    fold g in Hl0, Hl, Ht0, Hr0, Hb0.
    destruct Hl as [y [Hy' Hn]]; [lia|].
    exists (left_width g T), y. split; [lia|]. split; [exact Hy'|exact Hn].
Qed.

Lemma unletterbox_succeeds_iff_nonborder_witness :
  exists out, unletterbox (png ring10) 1 = Ok out /\
              (0 < img_width (picture out))%nat /\
              (0 < img_height (picture out))%nat.
Proof.
  apply (proj1 (unletterbox_succeeds_iff_nonborder (png ring10) 1)).
  exists 4, 4. split; [in_bounds|]. split; [in_bounds|reflexivity].
Defined.

(** ** Thresholds outside 0..255 *)

Lemma gray_value_range (im : image) (x y : Z) :
  decoded im = true ->
  exists v, getpixel (convert_L im) x y = Lum v /\ 0 <= v <= 255.
Proof.
  intros Hd. rewrite getpixel_convert_L.
  exact (pixel_ok_to_L _ _ (getpixel_ok im x y Hd)).
Qed.

(** X3: The threshold is not validated.  For a decoded picture a threshold of 0
    or less makes no pixel border, so the picture is returned whole; a
    threshold of 256 or more makes every pixel border, so the crop box is
    inverted and [ValueError] reaches the caller. *)
Theorem threshold_out_of_range (file : encoded) (T : Z) :
  decoded (picture file) = true ->
  (T <= 0 -> borders file T = Ok (Widths 0 0 0 0) /\
             unletterbox file T = Ok file) /\
  (256 <= T ->
   borders file T =
     Ok (Widths (Z.of_nat (img_height (picture file)))
                (Z.of_nat (img_height (picture file)))
                (Z.of_nat (img_width (picture file)))
                (Z.of_nat (img_width (picture file)))) /\
   unletterbox file T = Raise ValueError).
Proof.
  intros Hd. pose proof (decoded_spec _ Hd) as [Hw [Hh [Hws _]]]. split.
  - intros HT.
    assert (Hnone : forall x y, black_at (convert_L (picture file)) T x y = false).
    { intros x y. unfold black_at.
      destruct (gray_value_range _ x y Hd) as [v [-> Hv]].
      simpl. apply Z.ltb_ge. lia. }
    assert (Hb : borders file T = Ok (Widths 0 0 0 0)).
    { apply borders_zero; cbn [convert_L img_width img_height].
      - exists 0. split; [cbn [convert_L img_width]; lia|apply Hnone].
      - exists 0. split; [cbn [convert_L img_width]; lia|apply Hnone].
      - exists 0. split; [cbn [convert_L img_height]; lia|apply Hnone].
      - exists 0. split; [cbn [convert_L img_height]; lia|apply Hnone]. }
    split; [exact Hb|]. now apply unletterbox_no_border.
  - intros HT.
    assert (Hall : forall x y,
               0 <= x < Z.of_nat (img_width (convert_L (picture file))) ->
               0 <= y < Z.of_nat (img_height (convert_L (picture file))) ->
               black_at (convert_L (picture file)) T x y = true).
    { intros x y _ _. unfold black_at.
      destruct (gray_value_range _ x y Hd) as [v [-> Hv]].
      simpl. apply Z.ltb_lt. lia. }
    split.
    + rewrite borders_eval.
      apply all_black_widths in Hall as [-> [-> [-> ->]]]. reflexivity.
    + rewrite unletterbox_all_black by exact Hall.
      replace (img_width (picture file) =? 0)%nat with false
        by (symmetry; apply Nat.eqb_neq; lia).
      reflexivity.
Qed.

Lemma threshold_out_of_range_witness :
  (borders (png ring10) (-5) = Ok (Widths 0 0 0 0) /\
   unletterbox (png ring10) (-5) = Ok (png ring10)) /\
  (borders (png ring10) 256 = Ok (Widths 10 10 10 10) /\
   unletterbox (png ring10) 256 = Raise ValueError).
Proof.
  destruct (threshold_out_of_range (png ring10) (-5) eq_refl) as [Hlow _].
  destruct (threshold_out_of_range (png ring10) 256 eq_refl) as [_ Hhigh].
  split; [apply Hlow; lia|apply Hhigh; lia].
Defined.

(** ** Cropping at one threshold, then at a larger one *)

Lemma crop_crop (im out : image) (x0 y0 x1 y1 a0 c0 a1 c1 : Z) :
  crop im (x0, y0, x1, y1) = Ok out ->
  0 <= a0 <= a1 -> a1 <= x1 - x0 ->
  0 <= c0 <= c1 -> c1 <= y1 - y0 ->
  crop out (a0, c0, a1, c1) = crop im (x0 + a0, y0 + c0, x0 + a1, y0 + c1).
Proof.
  intros Hc Ha Ha1 Hcc Hc1.
  pose proof (crop_inv _ _ _ _ _ _ Hc) as [Hx [Hy Hout]].
  rewrite !crop_ok by lia. f_equal.
  replace (x0 + a1 - (x0 + a0)) with (a1 - a0) by lia.
  replace (y0 + c1 - (y0 + c0)) with (c1 - c0) by lia.
  rewrite Hout at 1. cbn [img_mode]. f_equal.
  apply map_ext_in. intros j Hj. apply in_range in Hj.
  apply map_ext_in. intros i Hi. apply in_range in Hi.
  rewrite (getpixel_crop _ _ _ _ _ _ (a0 + i) (c0 + j) Hc) by lia.
  f_equal; lia.
Qed.

Lemma widths_mono (g : image) (T1 T2 : Z) :
  T1 <= T2 ->
  top_width g T1 <= top_width g T2 /\
  bottom_width g T1 <= bottom_width g T2 /\
  left_width g T1 <= left_width g T2 /\
  right_width g T1 <= right_width g T2.
Proof.
  intros HT.
  assert (Hrow : forall y, row_is_border g T1 y ->
                           row_has_nonborder g T2 y -> False).
  { intros y Hb [x [Hx Hn]]. specialize (Hb x Hx).
    apply (black_at_mono _ _ _ _ _ HT) in Hb. congruence. }
  assert (Hcol : forall x, col_is_border g T1 x ->
                           col_has_nonborder g T2 x -> False).
  { intros x Hb [y [Hy Hn]]. specialize (Hb y Hy).
    apply (black_at_mono _ _ _ _ _ HT) in Hb. congruence. }
  repeat split.
  - eapply counts_le; [|apply (top_width_counts g T1)|apply (top_width_counts g T2)].
    exact Hrow.
  - eapply counts_le;
      [|apply (bottom_width_counts g T1)|apply (bottom_width_counts g T2)].
    intros i. apply Hrow.
  - eapply counts_le; [|apply (left_width_counts g T1)|apply (left_width_counts g T2)].
    exact Hcol.
  - eapply counts_le;
      [|apply (right_width_counts g T1)|apply (right_width_counts g T2)].
    intros i. apply Hcol.
Qed.

Lemma black_at_false_mono (g : image) (T1 T2 x y : Z) :
  T1 <= T2 -> black_at g T2 x y = false -> black_at g T1 x y = false.
Proof.
  intros HT Hn. destruct (black_at g T1 x y) eqn:E; [|reflexivity].
  apply (black_at_mono _ _ _ _ _ HT) in E. congruence.
Qed.

Section Recropped.

(** [g] is the measured view of a picture, [g'] the measured view of what
    the crop at threshold [T1] keeps of it; [T2] is a threshold at least as
    large, at which some pixel of [g] is still non-border. *)
Variables (g g' : image) (T1 T2 : Z).

Local Abbreviation W := (Z.of_nat (img_width g)).
Local Abbreviation H := (Z.of_nat (img_height g)).
Local Abbreviation t1 := (top_width g T1).
Local Abbreviation b1 := (bottom_width g T1).
Local Abbreviation l1 := (left_width g T1).
Local Abbreviation r1 := (right_width g T1).

Hypothesis thresholds : T1 <= T2.
Hypothesis width_kept : Z.of_nat (img_width g') = W - r1 - l1.
Hypothesis height_kept : Z.of_nat (img_height g') = H - b1 - t1.
Hypothesis pixels_kept :
  forall i j, 0 <= i < W - r1 - l1 -> 0 <= j < H - b1 - t1 ->
              getpixel g' i j = getpixel g (l1 + i) (t1 + j).
Hypothesis some_nonborder :
  exists x y, 0 <= x < W /\ 0 <= y < H /\ black_at g T2 x y = false.

Lemma recrop_black_at (i j : Z) :
  0 <= i < W - r1 - l1 -> 0 <= j < H - b1 - t1 ->
  black_at g' T2 i j = black_at g T2 (l1 + i) (t1 + j).
Proof. intros Hi Hj. unfold black_at. now rewrite pixels_kept. Qed.

(** A pixel that is non-border at [T2] lies in both boxes. *)
Lemma recrop_inside (x y : Z) :
  0 <= x < W -> 0 <= y < H -> black_at g T2 x y = false ->
  (l1 <= x < W - r1 /\ t1 <= y < H - b1) /\
  (left_width g T2 <= x < W - right_width g T2 /\
   top_width g T2 <= y < H - bottom_width g T2).
Proof.
  intros Hx Hy Hn. split.
  - apply nonborder_inside; try assumption.
    now apply (black_at_false_mono g T1 T2).
  - now apply nonborder_inside.
Qed.

Lemma recrop_top : top_width g' T2 = top_width g T2 - t1.
Proof.
  destruct some_nonborder as [x0 [y0 [Hx0 [Hy0 Hn0]]]].
  pose proof (recrop_inside x0 y0 Hx0 Hy0 Hn0) as [[Hc1 Hr1] [Hc2 Hr2]].
  pose proof (widths_mono g T1 T2 thresholds) as [Hmt [Hmb [Hml Hmr]]].
  destruct (top_width_counts g T1) as [Ht1 _].
  destruct (bottom_width_counts g T1) as [Hb1 _].
  destruct (left_width_counts g T1) as [Hl1 _].
  destruct (right_width_counts g T1) as [Hrr1 _].
  destruct (top_width_counts g T2) as [Ht2 [Hbord Hnon]].
  eapply counts_unique;
    [apply row_border_xor|apply top_width_counts|].
  split; [rewrite height_kept; lia|]. split.
  - intros i Hi x Hx. rewrite width_kept in Hx.
    rewrite recrop_black_at by lia. apply Hbord; lia.
  - rewrite height_kept. intros Hlt.
    destruct Hnon as [x [Hx Hn]]; [lia|].
    pose proof (recrop_inside x (top_width g T2) Hx ltac:(lia) Hn) as [[Hin _] _].
    exists (x - l1). rewrite width_kept. split; [lia|].
    rewrite recrop_black_at by lia. rewrite <- Hn. f_equal; lia.
Qed.

Lemma recrop_bottom : bottom_width g' T2 = bottom_width g T2 - b1.
Proof.
  destruct some_nonborder as [x0 [y0 [Hx0 [Hy0 Hn0]]]].
  pose proof (recrop_inside x0 y0 Hx0 Hy0 Hn0) as [[Hc1 Hr1] [Hc2 Hr2]].
  pose proof (widths_mono g T1 T2 thresholds) as [Hmt [Hmb [Hml Hmr]]].
  destruct (top_width_counts g T1) as [Ht1 _].
  destruct (bottom_width_counts g T1) as [Hb1 _].
  destruct (left_width_counts g T1) as [Hl1 _].
  destruct (right_width_counts g T1) as [Hrr1 _].
  destruct (bottom_width_counts g T2) as [Hb2 [Hbord Hnon]].
  eapply counts_unique; [|apply bottom_width_counts|].
  { intros i. apply row_border_xor. }
  split; [rewrite height_kept; lia|]. split.
  - intros i Hi x Hx. rewrite width_kept in Hx. rewrite height_kept.
    rewrite recrop_black_at by lia.
    replace (t1 + (H - b1 - t1 - 1 - i)) with (H - 1 - (b1 + i)) by lia.
    apply Hbord; lia.
  - rewrite height_kept. intros Hlt.
    destruct Hnon as [x [Hx Hn]]; [lia|].
    pose proof (recrop_inside x (H - 1 - bottom_width g T2) Hx ltac:(lia) Hn) as [[Hin _] _].
    exists (x - l1). rewrite width_kept. split; [lia|].
    rewrite recrop_black_at by lia. rewrite <- Hn. f_equal; lia.
Qed.

Lemma recrop_left : left_width g' T2 = left_width g T2 - l1.
Proof.
  destruct some_nonborder as [x0 [y0 [Hx0 [Hy0 Hn0]]]].
  pose proof (recrop_inside x0 y0 Hx0 Hy0 Hn0) as [[Hc1 Hr1] [Hc2 Hr2]].
  pose proof (widths_mono g T1 T2 thresholds) as [Hmt [Hmb [Hml Hmr]]].
  destruct (top_width_counts g T1) as [Ht1 _].
  destruct (bottom_width_counts g T1) as [Hb1 _].
  destruct (left_width_counts g T1) as [Hl1 _].
  destruct (right_width_counts g T1) as [Hrr1 _].
  destruct (left_width_counts g T2) as [Hl2 [Hbord Hnon]].
  eapply counts_unique;
    [apply col_border_xor|apply left_width_counts|].
  split; [rewrite width_kept; lia|]. split.
  - intros i Hi y Hy. rewrite height_kept in Hy.
    rewrite recrop_black_at by lia. apply Hbord; lia.
  - rewrite width_kept. intros Hlt.
    destruct Hnon as [y [Hy Hn]]; [lia|].
    pose proof (recrop_inside (left_width g T2) y ltac:(lia) Hy Hn) as [[_ Hin] _].
    exists (y - t1). rewrite height_kept. split; [lia|].
    rewrite recrop_black_at by lia. rewrite <- Hn. f_equal; lia.
Qed.

Lemma recrop_right : right_width g' T2 = right_width g T2 - r1.
Proof.
  destruct some_nonborder as [x0 [y0 [Hx0 [Hy0 Hn0]]]].
  pose proof (recrop_inside x0 y0 Hx0 Hy0 Hn0) as [[Hc1 Hr1] [Hc2 Hr2]].
  pose proof (widths_mono g T1 T2 thresholds) as [Hmt [Hmb [Hml Hmr]]].
  destruct (top_width_counts g T1) as [Ht1 _].
  destruct (bottom_width_counts g T1) as [Hb1 _].
  destruct (left_width_counts g T1) as [Hl1 _].
  destruct (right_width_counts g T1) as [Hrr1 _].
  destruct (right_width_counts g T2) as [Hr2' [Hbord Hnon]].
  eapply counts_unique; [|apply right_width_counts|].
  { intros i. apply col_border_xor. }
  split; [rewrite width_kept; lia|]. split.
  - intros i Hi y Hy. rewrite height_kept in Hy. rewrite width_kept.
    rewrite recrop_black_at by lia.
    replace (l1 + (W - r1 - l1 - 1 - i)) with (W - 1 - (r1 + i)) by lia.
    apply Hbord; lia.
  - rewrite width_kept. intros Hlt.
    destruct Hnon as [y [Hy Hn]]; [lia|].
    pose proof (recrop_inside (W - 1 - right_width g T2) y ltac:(lia) Hy Hn) as [[_ Hin] _].
    exists (y - t1). rewrite height_kept. split; [lia|].
    rewrite recrop_black_at by lia. rewrite <- Hn. f_equal; lia.
Qed.

End Recropped.

Lemma box_valid_cases (g : image) (T : Z) :
  left_width g T <= Z.of_nat (img_width g) - right_width g T ->
  top_width g T <= Z.of_nat (img_height g) - bottom_width g T ->
  (img_width g = 0%nat /\ img_height g = 0%nat) \/
  (left_width g T < Z.of_nat (img_width g) - right_width g T /\
   top_width g T < Z.of_nat (img_height g) - bottom_width g T).
Proof.
  intros Hx Hy.
  destruct (top_width_counts g T) as [Ht0 [_ Ht]].
  destruct (bottom_width_counts g T) as [Hb0 [_ Hb]].
  destruct (left_width_counts g T) as [Hl0 [_ Hl]].
  destruct (right_width_counts g T) as [Hr0 [_ Hr]].
  destruct (Z_lt_ge_dec (top_width g T) (Z.of_nat (img_height g))) as [Hlt|Hge].
  - right. destruct (Ht Hlt) as [x [Hx' Hn]].
    pose proof (nonborder_inside g T x (top_width g T) Hx' ltac:(lia) Hn).
    lia.
  - left.
    assert (Hh : img_height g = 0%nat).
    { destruct (Nat.eq_dec (img_height g) 0) as [|Hne]; [assumption|].
      exfalso. destruct Hb as [x [Hx' Hn]]; [lia|].
      pose proof (nonborder_inside g T x
                    (Z.of_nat (img_height g) - 1 - bottom_width g T)
                    Hx' ltac:(lia) Hn).
      lia. }
    split; [|exact Hh].
    destruct (Z_lt_ge_dec (left_width g T) (Z.of_nat (img_width g))) as [Hl'|Hl'].
    + destruct (Hl Hl') as [y [Hy' _]]. lia.
    + destruct (Z_lt_ge_dec (right_width g T) (Z.of_nat (img_width g)))
        as [Hr'|Hr'].
      * destruct (Hr Hr') as [y [Hy' _]]. lia.
      * lia.
Qed.

Lemma recrop_at_larger_threshold (file out1 : encoded) (T1 T2 : Z) :
  T1 <= T2 ->
  unletterbox file T1 = Ok out1 ->
  unletterbox out1 T2 = unletterbox file T2.
Proof.
  intros HT Hu. apply unletterbox_inv in Hu as [Hf Hc].
  pose proof (crop_inv _ _ _ _ _ _ Hc) as [Hx [Hy Hout]].
  set (im := picture file) in *. set (g := convert_L im) in *.
  assert (Hgw : img_width g = img_width im) by reflexivity.
  assert (Hgh : img_height g = img_height im) by reflexivity.
  destruct (top_width_counts g T1) as [Ht1 _].
  destruct (bottom_width_counts g T1) as [Hb1 _].
  destruct (left_width_counts g T1) as [Hl1 _].
  destruct (right_width_counts g T1) as [Hr1 _].
  rewrite Hgw in Hl1, Hr1. rewrite Hgh in Ht1, Hb1.
  assert (Hw' : Z.of_nat (img_width (convert_L (picture out1))) =
                Z.of_nat (img_width g) - right_width g T1 - left_width g T1).
  { rewrite Hout, Hgw. cbn [convert_L img_width]. lia. }
  assert (Hh' : Z.of_nat (img_height (convert_L (picture out1))) =
                Z.of_nat (img_height g) - bottom_width g T1 - top_width g T1).
  { rewrite Hout, Hgh. cbn [convert_L img_height]. lia. }
  assert (Hp' : forall i j,
             0 <= i < Z.of_nat (img_width g) - right_width g T1
                      - left_width g T1 ->
             0 <= j < Z.of_nat (img_height g) - bottom_width g T1
                      - top_width g T1 ->
             getpixel (convert_L (picture out1)) i j =
             getpixel g (left_width g T1 + i) (top_width g T1 + j)).
  { intros i j Hi Hj. rewrite Hgw in Hi. rewrite Hgh in Hj.
    unfold g. rewrite !getpixel_convert_L.
    now rewrite (getpixel_crop _ _ _ _ _ _ i j Hc) by lia. }
  destruct (top_width_counts g T2) as [Ht2 [Hbord2 Hnon2]].
  rewrite Hgh in Ht2.
  destruct (Z_lt_ge_dec (top_width g T2) (Z.of_nat (img_height im)))
    as [Hlt|Hge].
  - (* some pixel is non-border at T2 *)
    assert (Hex : exists x y, 0 <= x < Z.of_nat (img_width g) /\
                              0 <= y < Z.of_nat (img_height g) /\
                              black_at g T2 x y = false).
    { destruct Hnon2 as [x [Hx2 Hn]]; [rewrite Hgh; lia|].
      exists x, (top_width g T2). rewrite Hgh. repeat split; try lia; assumption. }
    pose proof (recrop_top g _ T1 T2 HT Hw' Hh' Hp' Hex) as Et.
    pose proof (recrop_bottom g _ T1 T2 HT Hw' Hh' Hp' Hex) as Eb.
    pose proof (recrop_left g _ T1 T2 HT Hw' Hh' Hp' Hex) as El.
    pose proof (recrop_right g _ T1 T2 HT Hw' Hh' Hp' Hex) as Er.
    destruct Hex as [x [y [Hx2 [Hy2 Hn]]]].
    pose proof (recrop_inside g T1 T2 HT x y Hx2 Hy2 Hn) as [[Hi1 Hj1] [Hi2 Hj2]].
    rewrite Hgw in Hi1, Hi2. rewrite Hgh in Hj1, Hj2.
    pose proof (widths_mono g T1 T2 HT) as [Hmt [Hmb [Hml Hmr]]].
    rewrite !unletterbox_eval, Hf. fold im g.
    rewrite Et, Eb, El, Er.
    cbn [convert_L img_width img_height] in Hw', Hh'. rewrite Hgw in Hw'.
    rewrite Hgh in Hh'. rewrite Hw', Hh'.
    rewrite (crop_crop _ _ _ _ _ _ _ _ _ _ Hc) by lia.
    match goal with
    | |- bind (crop _ (?a, ?b, ?c, ?d)) _ = bind (crop _ (?a', ?b', ?c', ?d')) _ =>
        replace a with a' by lia; replace b with b' by lia;
        replace c with c' by lia; replace d with d' by lia
    end.
    reflexivity.
  - (* every pixel is border at T2 *)
    assert (Hall : forall x y, 0 <= x < Z.of_nat (img_width im) ->
                               0 <= y < Z.of_nat (img_height im) ->
                               black_at g T2 x y = true).
    { intros x y Hx2 Hy2. apply Hbord2; [lia|]. now rewrite Hgw. }
    rewrite (unletterbox_all_black file T2) by exact Hall. fold im.
    rewrite (unletterbox_all_black out1 T2).
    + destruct (box_valid_cases g T1) as [[E1 E2]|[E1 E2]];
        [rewrite Hgw; lia|rewrite Hgh; lia| |].
      * rewrite Hgw in E1. rewrite Hgh in E2. rewrite Hf, Hout, E1, E2.
        cbn [img_width img_height img_mode Nat.eqb andb].
        replace (Z.to_nat (Z.of_nat 0 - right_width g T1 - left_width g T1))
          with 0%nat by lia.
        replace (Z.to_nat (Z.of_nat 0 - bottom_width g T1 - top_width g T1))
          with 0%nat by lia.
        reflexivity.
      * rewrite Hgw in E1. rewrite Hgh in E2.
        replace (img_width (picture out1) =? 0)%nat with false
          by (symmetry; apply Nat.eqb_neq; rewrite Hout;
              cbn [img_width]; lia).
        replace (img_width im =? 0)%nat with false
          by (symmetry; apply Nat.eqb_neq; lia).
        reflexivity.
    + intros i j Hi Hj. unfold black_at.
      cbn [convert_L img_width img_height] in Hw', Hh'.
      rewrite Hp' by lia. apply Hall; lia.
Qed.

(** X4: For a picture with at least one pixel and thresholds [T1 <= T2]:
    when a call at [T2] opens a file of the same format whose decoded
    picture is the one cut out at [T1], it gives what the call at [T2]
    gives on the original, the [ValueError] of an all-border picture
    included. *)
Theorem unletterbox_then_larger_threshold
        (file out1 again : encoded) (T1 T2 : Z) :
  (0 < img_width (picture file))%nat ->
  (0 < img_height (picture file))%nat ->
  T1 <= T2 ->
  unletterbox file T1 = Ok out1 ->
  format again = format out1 ->
  picture again = picture out1 ->
  unletterbox again T2 = unletterbox file T2.
Proof.
  intros _ _ HT Hu Hfmt Hpic.
  assert (E : again = out1).
  { destruct again, out1. cbn [format picture] in *. now subst. }
  rewrite E. now apply (recrop_at_larger_threshold file out1 T1 T2).
Qed.

Lemma unletterbox_then_larger_threshold_witness :
  unletterbox (png white6) 300 = unletterbox (png ring10) 300.
Proof.
  apply (unletterbox_then_larger_threshold (png ring10) (png white6)
           (png white6) 1 300);
    first [reflexivity | lia | vm_compute; lia].
Defined.

(** ** The colour test against the grayscale test *)

Lemma luma_le_max (r g b m : Z) :
  r <= m -> g <= m -> b <= m -> luma r g b <= m.
Proof.
  intros Hr Hg Hb. unfold luma. rewrite Z.shiftr_div_pow2 by lia.
  change (2 ^ 16) with 65536.
  assert (Hlt : (r * 19595 + g * 38470 + b * 7471 + 32768) / 65536 < m + 1)
    by (apply Z.div_lt_upper_bound; lia).
  lia.
Qed.

Lemma black_then_gray_black (p : pixel) (T : Z) :
  is_pixel_black p T = true -> is_pixel_black (to_L p) (T + 1) = true.
Proof.
  destruct p as [v|r g b]; simpl.
  - rewrite !Z.ltb_lt. lia.
  - rewrite !andb_true_iff, !Z.leb_le, Z.ltb_lt. intros [[Hr Hg] Hb].
    pose proof (luma_le_max r g b T Hr Hg Hb). lia.
Qed.

(** X5: Whatever the scanners count as border on a picture at threshold [T],
    they also count as border on its grayscale copy at [T + 1]: each width
    found on the picture itself at [T] is at most the width [unletterbox]
    measures at [T + 1]. *)
Theorem direct_scan_below_grayscale_scan (file : encoded) (T : Z) :
  exists top bottom left right b,
    detect_top_border (picture file) T = Ok top /\
    detect_bottom_border (picture file) T = Ok bottom /\
    detect_left_border (picture file) T = Ok left /\
    detect_right_border (picture file) T = Ok right /\
    borders file (T + 1) = Ok b /\
    top <= w_top b /\ bottom <= w_bottom b /\
    left <= w_left b /\ right <= w_right b.
Proof.
  rewrite detect_top_border_eval, detect_bottom_border_eval,
    detect_left_border_eval, detect_right_border_eval, borders_eval.
  do 5 eexists. repeat (split; [reflexivity|]).
  cbn [w_top w_bottom w_left w_right].
  set (im := picture file). set (g := convert_L im).
  assert (Hpix : forall x y, black_at im T x y = true ->
                             black_at g (T + 1) x y = true).
  { intros x y Hb. unfold g. rewrite black_at_convert_L.
    now apply black_then_gray_black. }
  assert (Hrow : forall y, row_is_border im T y ->
                           row_has_nonborder g (T + 1) y -> False).
  { intros y Hb [x [Hx Hn]]. cbn [g convert_L img_width] in Hx.
    specialize (Hb x Hx). apply Hpix in Hb. congruence. }
  assert (Hcol : forall x, col_is_border im T x ->
                           col_has_nonborder g (T + 1) x -> False).
  { intros x Hb [y [Hy Hn]]. cbn [g convert_L img_height] in Hy.
    specialize (Hb y Hy). apply Hpix in Hb. congruence. }
  repeat split.
  - eapply counts_le;
      [|apply (top_width_counts im T)|apply (top_width_counts g (T + 1))].
    exact Hrow.
  - eapply counts_le;
      [|apply (bottom_width_counts im T)|apply (bottom_width_counts g (T + 1))].
    intros i. apply Hrow.
  - eapply counts_le;
      [|apply (left_width_counts im T)|apply (left_width_counts g (T + 1))].
    exact Hcol.
  - eapply counts_le;
      [|apply (right_width_counts im T)|apply (right_width_counts g (T + 1))].
    intros i. apply Hcol.
Qed.

(** ** Pictures without rows or without columns *)

(** X6: A line with no pixel on it counts as border.  So a picture of height 0
    has top and bottom widths 0 but left and right widths equal to its full
    width, and a picture of width 0 has left and right widths 0 but top and
    bottom widths equal to its full height. *)
Theorem scanners_on_empty_picture (im : image) (T : Z) :
  (img_height im = 0%nat ->
   detect_top_border im T = Ok 0 /\
   detect_bottom_border im T = Ok 0 /\
   detect_left_border im T = Ok (Z.of_nat (img_width im)) /\
   detect_right_border im T = Ok (Z.of_nat (img_width im))) /\
  (img_width im = 0%nat ->
   detect_top_border im T = Ok (Z.of_nat (img_height im)) /\
   detect_bottom_border im T = Ok (Z.of_nat (img_height im)) /\
   detect_left_border im T = Ok 0 /\
   detect_right_border im T = Ok 0).
Proof.
  rewrite detect_top_border_eval, detect_bottom_border_eval,
    detect_left_border_eval, detect_right_border_eval.
  destruct (top_width_counts im T) as [Ht _].
  destruct (bottom_width_counts im T) as [Hb _].
  destruct (left_width_counts im T) as [Hl _].
  destruct (right_width_counts im T) as [Hr _].
  split.
  - intros Hh. rewrite Hh in Ht, Hb.
    repeat split; f_equal; try lia.
    + eapply counts_all_border;
        [apply col_border_xor|apply left_width_counts|].
      intros x _ y Hy. lia.
    + eapply counts_all_border; [|apply right_width_counts|].
      * intros i. apply col_border_xor.
      * intros x _ y Hy. lia.
  - intros Hw. rewrite Hw in Hl, Hr.
    repeat split; f_equal; try lia.
    + eapply counts_all_border;
        [apply row_border_xor|apply top_width_counts|].
      intros y _ x Hx. lia.
    + eapply counts_all_border; [|apply bottom_width_counts|].
      * intros i. apply row_border_xor.
      * intros y _ x Hx. lia.
Qed.

Lemma scanners_on_empty_picture_witness :
  detect_top_border (Image ModeL 3 0 []) 7 = Ok 0 /\
  detect_bottom_border (Image ModeL 3 0 []) 7 = Ok 0 /\
  detect_left_border (Image ModeL 3 0 []) 7 = Ok 3 /\
  detect_right_border (Image ModeL 3 0 []) 7 = Ok 3.
Proof.
  apply (proj1 (scanners_on_empty_picture (Image ModeL 3 0 []) 7)).
  reflexivity.
Defined.

(** ** A single non-border pixel *)

Lemma lone_pixel_widths (g : image) (T x0 y0 : Z) :
  0 <= x0 < Z.of_nat (img_width g) ->
  0 <= y0 < Z.of_nat (img_height g) ->
  (forall x y, 0 <= x < Z.of_nat (img_width g) ->
               0 <= y < Z.of_nat (img_height g) ->
               (black_at g T x y = false <-> x = x0 /\ y = y0)) ->
  top_width g T = y0 /\
  bottom_width g T = Z.of_nat (img_height g) - 1 - y0 /\
  left_width g T = x0 /\
  right_width g T = Z.of_nat (img_width g) - 1 - x0.
Proof.
  intros Hx0 Hy0 Hlone.
  assert (Hthere : black_at g T x0 y0 = false)
    by (apply Hlone; [assumption|assumption|split; reflexivity]).
  assert (Helse : forall x y, 0 <= x < Z.of_nat (img_width g) ->
                              0 <= y < Z.of_nat (img_height g) ->
                              x <> x0 \/ y <> y0 -> black_at g T x y = true).
  { intros x y Hx Hy Hne. destruct (black_at g T x y) eqn:E; [reflexivity|].
    apply Hlone in E; [|assumption|assumption]. lia. }
  repeat split.
  - eapply counts_unique;
      [apply row_border_xor|apply top_width_counts|].
    split; [lia|]. split.
    + intros i Hi x Hx. apply Helse; lia.
    + intros _. exists x0. now split.
  - eapply counts_unique; [|apply bottom_width_counts|].
    { intros i. apply row_border_xor. }
    split; [lia|]. split.
    + intros i Hi x Hx. apply Helse; lia.
    + intros _. exists x0. split; [assumption|].
      replace (Z.of_nat (img_height g) - 1 - (Z.of_nat (img_height g) - 1 - y0))
        with y0 by lia.
      assumption.
  - eapply counts_unique;
      [apply col_border_xor|apply left_width_counts|].
    split; [lia|]. split.
    + intros i Hi y Hy. apply Helse; lia.
    + intros _. exists y0. now split.
  - eapply counts_unique; [|apply right_width_counts|].
    { intros i. apply col_border_xor. }
    split; [lia|]. split.
    + intros i Hi y Hy. apply Helse; lia.
    + intros _. exists y0. split; [assumption|].
      replace (Z.of_nat (img_width g) - 1 - (Z.of_nat (img_width g) - 1 - x0))
        with x0 by lia.
      assumption.
Qed.

(** X7: When exactly one pixel of the measured view is non-border, each scan
    stops exactly at its line, and [unletterbox] returns the 1x1 picture
    holding that pixel of the original. *)
Theorem lone_nonborder_pixel (file : encoded) (T x0 y0 : Z) :
  let im := picture file in
  let g := convert_L im in
  let W := Z.of_nat (img_width im) in
  let H := Z.of_nat (img_height im) in
  0 <= x0 < W -> 0 <= y0 < H ->
  (forall x y, 0 <= x < W -> 0 <= y < H ->
               (black_at g T x y = false <-> x = x0 /\ y = y0)) ->
  borders file T = Ok (Widths y0 (H - 1 - y0) x0 (W - 1 - x0)) /\
  unletterbox file T =
    Ok {| format := format file;
          picture := {| img_mode := img_mode im;
                        img_width := 1;
                        img_height := 1;
                        img_rows := [[getpixel im x0 y0]] |} |}.
Proof.
  intros im g W H Hx0 Hy0 Hlone.
  destruct (lone_pixel_widths g T x0 y0 Hx0 Hy0 Hlone) as [Et [Eb [El Er]]].
  cbn [g convert_L img_width img_height] in Eb, Er. fold im g W H in Eb, Er.
  split.
  - rewrite borders_eval. fold im g. now rewrite Et, Eb, El, Er.
  - rewrite unletterbox_eval. fold im g W H. rewrite Et, Eb, El, Er.
    replace (W - (W - 1 - x0)) with (x0 + 1) by lia.
    replace (H - (H - 1 - y0)) with (y0 + 1) by lia.
    rewrite crop_ok by lia. cbn [bind].
    replace (x0 + 1 - x0) with 1 by lia.
    replace (y0 + 1 - y0) with 1 by lia.
    rewrite range_one. cbn [map]. now rewrite !Z.add_0_r.
Qed.

Lemma lone_nonborder_pixel_witness :
  borders (png (gray_image [[0; 0; 0]; [0; 0; 90]])) 50
    = Ok (Widths 1 (2 - 1 - 1) 2 (3 - 1 - 2)) /\
  unletterbox (png (gray_image [[0; 0; 0]; [0; 0; 90]])) 50
    = Ok (png (gray_image [[90]])).
Proof.
  apply (lone_nonborder_pixel (png (gray_image [[0; 0; 0]; [0; 0; 90]])) 50 2 1).
  - in_bounds.
  - in_bounds.
  - intros x y Hx Hy.
    change (Z.of_nat (img_width (picture (png (gray_image [[0; 0; 0]; [0; 0; 90]])))))
      with 3 in Hx.
    change (Z.of_nat (img_height (picture (png (gray_image [[0; 0; 0]; [0; 0; 90]])))))
      with 2 in Hy.
    assert (Ex : x = 0 \/ x = 1 \/ x = 2) by lia.
    assert (Ey : y = 0 \/ y = 1) by lia.
    destruct Ex as [->|[->| ->]]; destruct Ey as [->| ->]; vm_compute;
      (split; [intros E|intros [E1 E2]]);
      first [discriminate | split; reflexivity | reflexivity].
Defined.
(** * The batch code *)

(** ** Output paths *)

Lemma append_assoc (a b c : String.string) :
  String.append (String.append a b) c = String.append a (String.append b c).
Proof. induction a as [|x a IH]; simpl; [reflexivity|]. now rewrite IH. Qed.

Lemma append_empty_r (a : String.string) :
  String.append a String.EmptyString = a.
Proof. induction a as [|x a IH]; simpl; [reflexivity|]. now rewrite IH. Qed.

Lemma basename_from_after_sep (cur a n : String.string) :
  basename_from cur (String.append a (String.String sep n)) =
  basename_from String.EmptyString n.
Proof.
  revert cur. induction a as [|c a IH]; intros cur;
    cbn [String.append basename_from].
  - now rewrite Ascii.eqb_refl.
  - destruct (Ascii.eqb c sep); apply IH.
Qed.

Lemma basename_from_no_sep (cur n : String.string) :
  no_sep n = true -> basename_from cur n = String.append cur n.
Proof.
  revert cur. induction n as [|c n IH]; intros cur Hn;
    cbn [no_sep basename_from] in *.
  - now rewrite append_empty_r.
  - apply andb_true_iff in Hn as [Hc Hn]. apply negb_true_iff in Hc.
    rewrite Hc, IH by assumption. now rewrite append_assoc.
Qed.

Lemma no_sep_append (a b : String.string) :
  no_sep a = true -> no_sep b = true -> no_sep (String.append a b) = true.
Proof.
  intros Ha Hb. induction a as [|c a IH]; cbn [String.append no_sep] in *;
    [assumption|].
  apply andb_true_iff in Ha as [Hc Ha]. now rewrite Hc, IH.
Qed.

Lemma basename_from_has_no_sep (cur p : String.string) :
  no_sep cur = true -> no_sep (basename_from cur p) = true.
Proof.
  revert cur. induction p as [|c p IH]; intros cur Hcur; cbn [basename_from];
    [assumption|].
  destruct (Ascii.eqb c sep) eqn:Ec.
  - now apply IH.
  - apply IH, no_sep_append; [assumption|]. cbn [no_sep]. now rewrite Ec.
Qed.

Lemma basename_has_no_sep (p : String.string) : no_sep (basename p) = true.
Proof. now apply basename_from_has_no_sep. Qed.

Lemma no_sep_not_absolute (n : String.string) :
  no_sep n = true -> startswith_sep n = false.
Proof.
  destruct n as [|c n]; cbn [no_sep startswith_sep]; [reflexivity|].
  intros Hn. apply andb_true_iff in Hn as [Hc _]. now apply negb_true_iff.
Qed.

Lemma endswith_sep_split (d : String.string) :
  endswith_sep d = true ->
  exists d', d = String.append d' (String.String sep String.EmptyString).
Proof.
  induction d as [|c d IH]; cbn [endswith_sep]; [discriminate|].
  destruct d as [|c' d].
  - intros Hc. apply Ascii.eqb_eq in Hc. subst c.
    now exists String.EmptyString.
  - intros Hd. destruct (IH Hd) as [d' Hd'].
    exists (String.String c d'). cbn [String.append]. now rewrite <- Hd'.
Qed.

Lemma basename_join (d n : String.string) :
  no_sep n = true -> basename (join d n) = n.
Proof.
  intros Hn. unfold join, basename.
  rewrite (no_sep_not_absolute n Hn).
  destruct (String.eqb d String.EmptyString) eqn:Ed; cbn [orb].
  - apply String.eqb_eq in Ed. subst d. cbn [String.append].
    now rewrite basename_from_no_sep.
  - destruct (endswith_sep d) eqn:Ee.
    + destruct (endswith_sep_split d Ee) as [d' ->].
      rewrite append_assoc. cbn [String.append].
      rewrite basename_from_after_sep. now rewrite basename_from_no_sep.
    + rewrite basename_from_after_sep. now rewrite basename_from_no_sep.
Qed.

(** X8: The output of [process_with_your_function] keeps the file name of the
    input: the base name of [join(output_dir, basename(input_file))] is the
    base name of [input_file], for every directory and every input path. *)
Theorem output_path_keeps_file_name (output_dir input_file : String.string) :
  basename (join output_dir (basename input_file)) = basename input_file.
Proof. apply basename_join, basename_has_no_sep. Qed.

(** ** [process_with_your_function] *)

Lemma write_file_same (fs : files) (path : String.string) (f : file) :
  write_file fs path f path = Some f.
Proof. unfold write_file. now rewrite String.eqb_refl. Qed.

Lemma write_file_other (fs : files) (path p : String.string) (f : file) :
  p <> path -> write_file fs path f p = fs p.
Proof.
  intros Hne. unfold write_file.
  now replace (String.eqb p path) with false
    by (symmetry; apply String.eqb_neq; exact Hne).
Qed.

(** X9: When the output path names no file before the call (so it is not
    another spelling of, or a link to, the input), the input exists and
    [unletterbox] fails on it (a directory, bytes that are not an image, or
    a picture that is all border), nothing is raised to the caller: the
    error is printed, the output file, opened before [unletterbox] ran, is
    left behind empty, and the input is as before. *)
Theorem failed_processing_leaves_empty_output
        (open_wb : String.string -> result unit) (fs : files)
        (input_file output_dir : String.string) (T : Z) (f : file) (e : exn) :
  let output_path := join output_dir (basename input_file) in
  let after := process_with_your_function open_wb fs input_file output_dir T in
  open_wb output_path = Ok tt ->
  fs output_path = None ->
  fs input_file = Some f ->
  unletterbox_path fs input_file T = Raise e ->
  fst after output_path = Some EmptyFile /\
  fst after input_file = Some f /\
  snd after = [ProcessingError e].
Proof.
  intros output_path after Hopen Hfresh Hin Hfail.
  assert (Hne : input_file <> output_path) by (intros E; congruence).
  unfold after, process_with_your_function. fold output_path. rewrite Hopen.
  assert (Hsame : unletterbox_path (write_file fs output_path EmptyFile)
                                   input_file T = Raise e).
  { unfold unletterbox_path, image_open in *.
    now rewrite write_file_other by exact Hne. }
  rewrite Hsame. cbn [fst snd]. split; [apply write_file_same|].
  split; [|reflexivity]. now rewrite write_file_other by exact Hne.
Qed.

Lemma failed_processing_leaves_empty_output_witness :
  fst (process_with_your_function always_openable example_files
         "in/a.png"%string "out"%string 1) "out/a.png"%string = Some EmptyFile /\
  fst (process_with_your_function always_openable example_files
         "in/a.png"%string "out"%string 1) "in/a.png"%string
    = Some (ImageFile (png black1x1)) /\
  snd (process_with_your_function always_openable example_files
         "in/a.png"%string "out"%string 1) = [ProcessingError ValueError].
Proof.
  apply (failed_processing_leaves_empty_output always_openable example_files
           "in/a.png"%string "out"%string 1 (ImageFile (png black1x1))
           ValueError);
    reflexivity.
Defined.



(** X11: When the output path names no file before the call (so it is not
    another spelling of, or a link to, the input) and the input holds an
    image on which [unletterbox] succeeds, the output file holds the result
    of [unletterbox], the input is as before, and the success line is
    printed. *)
Theorem successful_processing_writes_result
        (open_wb : String.string -> result unit) (fs : files)
        (input_file output_dir : String.string) (T : Z) (image out : encoded) :
  let output_path := join output_dir (basename input_file) in
  let after := process_with_your_function open_wb fs input_file output_dir T in
  open_wb output_path = Ok tt ->
  fs output_path = None ->
  fs input_file = Some (ImageFile image) ->
  unletterbox image T = Ok out ->
  fst after output_path = Some (ImageFile out) /\
  fst after input_file = Some (ImageFile image) /\
  snd after = [Processed output_path].
Proof.
  intros output_path after Hopen Hfresh Hin Hu.
  assert (Hne : input_file <> output_path) by (intros E; congruence).
  unfold after, process_with_your_function. fold output_path. rewrite Hopen.
  unfold unletterbox_path, image_open.
  rewrite write_file_other by exact Hne. rewrite Hin. cbn [bind]. rewrite Hu.
  cbn [fst snd]. split; [apply write_file_same|].
  split; [|reflexivity]. now rewrite !write_file_other by exact Hne.
Qed.

Lemma successful_processing_writes_result_witness :
  fst (process_with_your_function always_openable example_files
         "in/r.png"%string "out"%string 1) "out/r.png"%string
    = Some (ImageFile (png white6)) /\
  fst (process_with_your_function always_openable example_files
         "in/r.png"%string "out"%string 1) "in/r.png"%string
    = Some (ImageFile (png ring10)) /\
  snd (process_with_your_function always_openable example_files
         "in/r.png"%string "out"%string 1) = [Processed "out/r.png"%string].
Proof.
  apply (successful_processing_writes_result always_openable example_files
           "in/r.png"%string "out"%string 1 (png ring10) (png white6));
    reflexivity.
Defined.

(** * The comparison code *)

(** ** Counting pixel differences *)

Lemma pixel_eqb_eq (p1 p2 : pixel) : pixel_eqb p1 p2 = true <-> p1 = p2.
Proof.
  destruct p1 as [v1|r1 g1 b1], p2 as [v2|r2 g2 b2]; simpl;
    try (split; [discriminate|intros E; discriminate E]).
  - rewrite Z.eqb_eq. split; [intros ->; reflexivity|intros E; now injection E].
  - rewrite !andb_true_iff, !Z.eqb_eq. split.
    + intros [[-> ->] ->]. reflexivity.
    + intros E. injection E as -> -> ->. repeat split.
Qed.

Lemma pixel_eqb_refl (p : pixel) : pixel_eqb p p = true.
Proof. now apply pixel_eqb_eq. Qed.

Lemma pixel_eqb_sym (p1 p2 : pixel) : pixel_eqb p1 p2 = pixel_eqb p2 p1.
Proof.
  destruct (pixel_eqb p1 p2) eqn:E1, (pixel_eqb p2 p1) eqn:E2;
    try reflexivity.
  - apply pixel_eqb_eq in E1. subst. rewrite pixel_eqb_refl in E2. discriminate.
  - apply pixel_eqb_eq in E2. subst. rewrite pixel_eqb_refl in E1. discriminate.
Qed.

(** The number of positions at which two pixel sequences differ, as the
    generator expression counts them. *)
Lemma differing_self (l : list pixel) :
  filter (fun '(p1, p2) => negb (pixel_eqb p1 p2)) (combine l l) = [].
Proof.
  induction l as [|p l IH]; simpl; [reflexivity|].
  now rewrite pixel_eqb_refl.
Qed.

Lemma differing_sym (l1 l2 : list pixel) :
  length (filter (fun '(p1, p2) => negb (pixel_eqb p1 p2)) (combine l1 l2)) =
  length (filter (fun '(p1, p2) => negb (pixel_eqb p1 p2)) (combine l2 l1)).
Proof.
  revert l2. induction l1 as [|p1 l1 IH]; intros [|p2 l2]; simpl;
    try reflexivity.
  rewrite (pixel_eqb_sym p2 p1).
  destruct (pixel_eqb p1 p2); simpl; now rewrite IH.
Qed.

Lemma differing_prefix (l rest : list pixel) :
  filter (fun '(p1, p2) => negb (pixel_eqb p1 p2)) (combine (l ++ rest) l) = [].
Proof.
  induction l as [|p l IH]; simpl.
  - now destruct rest.
  - now rewrite pixel_eqb_refl.
Qed.

Lemma differing_none_eq (l1 l2 : list pixel) :
  length l1 = length l2 ->
  filter (fun '(p1, p2) => negb (pixel_eqb p1 p2)) (combine l1 l2) = [] ->
  l1 = l2.
Proof.
  revert l2. induction l1 as [|p1 l1 IH]; intros [|p2 l2] Hlen Hf;
    simpl in *; try discriminate; [reflexivity|].
  destruct (pixel_eqb p1 p2) eqn:E; simpl in Hf; [|discriminate].
  apply pixel_eqb_eq in E. subst p2. f_equal. apply IH; [lia|assumption].
Qed.

Lemma pixel_differences_self (img : image) : pixel_differences img img = 0.
Proof. unfold pixel_differences. now rewrite differing_self. Qed.

Lemma pixel_differences_sym (img1 img2 : image) :
  pixel_differences img1 img2 = pixel_differences img2 img1.
Proof. unfold pixel_differences. now rewrite differing_sym. Qed.

(** X13: The count of [compare_images] is 0 for a picture against itself, does
    not depend on the order of the two pictures, and is at most the pixel
    count of the smaller one. *)
Theorem pixel_differences_basic (img1 img2 : image) :
  pixel_differences img1 img1 = 0 /\
  pixel_differences img1 img2 = pixel_differences img2 img1 /\
  0 <= pixel_differences img1 img2 <=
    Z.of_nat (Nat.min (length (getdata img1)) (length (getdata img2))).
Proof.
  split; [apply pixel_differences_self|]. split; [apply pixel_differences_sym|].
  unfold pixel_differences.
  - split; [lia|]. apply inj_le.
    rewrite <- length_combine. apply filter_length_le.
Qed.

(** ** A count of 0 and equality *)

Lemma app_eq_same_length {A : Type} (a b x y : list A) :
  length a = length b -> a ++ x = b ++ y -> a = b /\ x = y.
Proof.
  revert b. induction a as [|h a IH]; intros [|h' b] Hlen E; simpl in *;
    try discriminate.
  - now split.
  - injection E as -> E. destruct (IH b) as [-> ->]; [lia|assumption|].
    now split.
Qed.

Lemma concat_uniform_length {A : Type} (rows : list (list A)) (w : nat) :
  (forall row, In row rows -> length row = w) ->
  length (concat rows) = (length rows * w)%nat.
Proof.
  intros Hw. induction rows as [|row rows IH]; simpl; [reflexivity|].
  rewrite length_app, IH, (Hw row).
  - reflexivity.
  - now left.
  - intros row' Hrow'. apply Hw. now right.
Qed.

Lemma concat_uniform_inj {A : Type} (rows1 rows2 : list (list A)) (w : nat) :
  (forall row, In row rows1 -> length row = w) ->
  (forall row, In row rows2 -> length row = w) ->
  length rows1 = length rows2 ->
  concat rows1 = concat rows2 -> rows1 = rows2.
Proof.
  revert rows2. induction rows1 as [|r1 rows1 IH]; intros [|r2 rows2] H1 H2 Hlen E;
    simpl in *; try discriminate; [reflexivity|].
  destruct (app_eq_same_length r1 r2 (concat rows1) (concat rows2)) as [-> E'].
  - rewrite (H1 r1), (H2 r2); [reflexivity|now left|now left].
  - exact E.
  - f_equal. apply IH.
    + intros row Hrow. apply H1. now right.
    + intros row Hrow. apply H2. now right.
    + lia.
    + exact E'.
Qed.

(** X14: For two well-shaped pictures of the same mode and the same size, the
    count is 0 exactly when the pictures are equal. *)
Theorem pixel_differences_zero_iff_equal (img1 img2 : image) :
  well_shaped img1 = true -> well_shaped img2 = true ->
  img_mode img1 = img_mode img2 ->
  size img1 = size img2 ->
  (pixel_differences img1 img2 = 0 <-> img1 = img2).
Proof.
  intros Hws1 Hws2 Hmode Hsize.
  apply well_shaped_spec in Hws1 as [Hh1 Hw1].
  apply well_shaped_spec in Hws2 as [Hh2 Hw2].
  unfold size in Hsize. injection Hsize as Ew Eh.
  apply Nat2Z.inj in Ew, Eh. split.
  - intros Hz. unfold pixel_differences in Hz.
    assert (Hnil : filter (fun '(p1, p2) => negb (pixel_eqb p1 p2))
                     (combine (getdata img1) (getdata img2)) = []).
    { apply length_zero_iff_nil. lia. }
    assert (Hdata : getdata img1 = getdata img2).
    { apply differing_none_eq; [|exact Hnil]. unfold getdata.
      rewrite (concat_uniform_length _ _ Hw1), (concat_uniform_length _ _ Hw2).
      now rewrite Hh1, Hh2, Ew, Eh. }
    assert (Hrows : img_rows img1 = img_rows img2).
    { apply (concat_uniform_inj _ _ (img_width img1)).
      - exact Hw1.
      - rewrite Ew. exact Hw2.
      - now rewrite Hh1, Hh2.
      - exact Hdata. }
    destruct img1 as [m1 w1 h1 rows1], img2 as [m2 w2 h2 rows2].
    cbn [img_mode img_width img_height img_rows] in *.
    now subst.
  - intros ->. apply pixel_differences_self.
Qed.

Lemma pixel_differences_zero_iff_equal_witness :
  pixel_differences checker2 checker2 = 0 <-> checker2 = checker2.
Proof.
  apply (pixel_differences_zero_iff_equal checker2 checker2); reflexivity.
Defined.

(** ** A count of 0 with a size mismatch *)

Lemma range_split (m n : Z) :
  0 <= m <= n ->
  range n = range m ++ map Z.of_nat (seq (Z.to_nat m) (Z.to_nat n - Z.to_nat m)).
Proof.
  intros Hmn. unfold range. rewrite <- map_app. f_equal.
  replace (Z.to_nat n) with (Z.to_nat m + (Z.to_nat n - Z.to_nat m))%nat
    at 1 by lia.
  apply seq_app.
Qed.

(** X15: Two crops of one picture that share left, top and right sides and
    differ only in the lower side differ in size, yet the count is 0: [zip]
    stops at the end of the shorter pixel sequence, which is a prefix of the
    longer one. *)
Theorem differences_blind_to_extra_rows
        (im a b : image) (x0 y0 x1 y1 y1' : Z) :
  crop im (x0, y0, x1, y1) = Ok a ->
  crop im (x0, y0, x1, y1') = Ok b ->
  y1' < y1 ->
  size a <> size b /\
  pixel_differences a b = 0 /\ pixel_differences b a = 0.
Proof.
  intros Ha Hb Hlt.
  apply crop_inv in Ha as [Hx [Hy ->]]. apply crop_inv in Hb as [_ [Hy' ->]].
  split.
  - unfold size. cbn [img_width img_height]. intros E. injection E as E. lia.
  - assert (Hz : pixel_differences
                   {| img_mode := img_mode im;
                      img_width := Z.to_nat (x1 - x0);
                      img_height := Z.to_nat (y1 - y0);
                      img_rows :=
                        map (fun j => map (fun i => getpixel im (x0 + i) (y0 + j))
                                          (range (x1 - x0)))
                            (range (y1 - y0)) |}
                   {| img_mode := img_mode im;
                      img_width := Z.to_nat (x1 - x0);
                      img_height := Z.to_nat (y1' - y0);
                      img_rows :=
                        map (fun j => map (fun i => getpixel im (x0 + i) (y0 + j))
                                          (range (x1 - x0)))
                            (range (y1' - y0)) |} = 0).
    { unfold pixel_differences, getdata. cbn [img_rows].
      rewrite (range_split (y1' - y0) (y1 - y0)) by lia.
      rewrite map_app, concat_app, differing_prefix. reflexivity. }
    split; [exact Hz|].
    rewrite <- Hz. apply pixel_differences_sym.
Qed.

Lemma differences_blind_to_extra_rows_witness :
  size ring10 <> size (Image ModeRGB 10 4 (firstn 4 (img_rows ring10))) /\
  pixel_differences ring10 (Image ModeRGB 10 4 (firstn 4 (img_rows ring10))) = 0 /\
  pixel_differences (Image ModeRGB 10 4 (firstn 4 (img_rows ring10))) ring10 = 0.
Proof.
  apply (differences_blind_to_extra_rows ring10 _ _ 0 0 10 10 4).
  - reflexivity.
  - reflexivity.
  - lia.
Defined.

(** ** The report of [compare_images] *)

Lemma verdicts_app (l1 l2 : list message) :
  verdicts (l1 ++ l2) = verdicts l1 ++ verdicts l2.
Proof.
  induction l1 as [|m l1 IH]; simpl; [reflexivity|].
  destruct (verdict_on m); simpl; now rewrite IH.
Qed.

Lemma compare_files_verdicts (fs : files) (dir1 dir2 : String.string)
      (names : list String.string) :
  exists rest,
    names = verdicts (fst (compare_files fs dir1 dir2 names)) ++ rest /\
    (snd (compare_files fs dir1 dir2 names) = Ok tt -> rest = []).
Proof.
  induction names as [|n names IH]; cbn [compare_files].
  - exists []. split; reflexivity.
  - destruct IH as [rest [Hnames Hok]].
    destruct (fs (join dir2 n)) as [f2|].
    + destruct (image_open fs (join dir1 n)) as [img1|e1];
        [|exists (n :: names); split; [reflexivity|discriminate]].
      destruct (image_open fs (join dir2 n)) as [img2|e2];
        [|exists (n :: names); split; [reflexivity|discriminate]].
      destruct (compare_files fs dir1 dir2 names) as [log r].
      cbn [fst snd] in *. exists rest. split; [|exact Hok].
      rewrite verdicts_app.
      destruct (size_eqb (size (picture img1)) (size (picture img2)));
        cbn [verdicts verdict_on app]; now rewrite <- Hnames.
    + destruct (compare_files fs dir1 dir2 names) as [log r].
      cbn [fst snd verdicts verdict_on] in *. exists rest.
      split; [|exact Hok]. cbn [app]. now rewrite <- Hnames.
Qed.

Lemma compare_files_completes (fs : files) (dir1 dir2 : String.string)
      (names : list String.string) :
  (forall n, In n names -> fs (join dir2 n) <> None ->
     exists e1 e2, fs (join dir1 n) = Some (ImageFile e1) /\
                   fs (join dir2 n) = Some (ImageFile e2)) ->
  snd (compare_files fs dir1 dir2 names) = Ok tt.
Proof.
  induction names as [|n names IH]; intros Himg; cbn [compare_files];
    [reflexivity|].
  assert (IH' : snd (compare_files fs dir1 dir2 names) = Ok tt).
  { apply IH. intros n' Hn'. apply Himg. now right. }
  destruct (fs (join dir2 n)) as [f2|] eqn:E2.
  - destruct (Himg n) as [e1 [e2 [H1 H2]]]; [now left|congruence|].
    unfold image_open. rewrite H1, E2.
    assert (f2 = ImageFile e2) by congruence. subst f2.
    now destruct (compare_files fs dir1 dir2 names).
  - now destruct (compare_files fs dir1 dir2 names).
Qed.

(** X16: The report gives a verdict (a difference count, or "not found") on the
    files listed in the first directory only, each once and in the order of
    the listing, whether or not sizes match; an exception of [Image.open]
    cuts the report short.  When every listed file with a counterpart in the
    second directory is an image on both sides, the report is complete. *)
Theorem compare_images_reports_each_listed_file
        (listdir : String.string -> result (list String.string))
        (fs : files) (dir1 dir2 : String.string)
        (names : list String.string) :
  listdir dir1 = Ok names ->
  let report := compare_images listdir fs dir1 dir2 in
  (exists rest, names = verdicts (fst report) ++ rest /\
                (snd report = Ok tt -> rest = [])) /\
  ((forall n, In n names -> fs (join dir2 n) <> None ->
      exists e1 e2, fs (join dir1 n) = Some (ImageFile e1) /\
                    fs (join dir2 n) = Some (ImageFile e2)) ->
   snd report = Ok tt /\ verdicts (fst report) = names).
Proof.
  intros Hls report. unfold report, compare_images. rewrite Hls.
  pose proof (compare_files_verdicts fs dir1 dir2 names) as [rest [Hn Hok]].
  pose proof (compare_files_completes fs dir1 dir2 names) as Hc.
  destruct (compare_files fs dir1 dir2 names) as [log r].
  cbn [fst snd verdicts verdict_on] in *. split.
  - exists rest. now split.
  - intros Himg. specialize (Hc Himg). split; [exact Hc|].
    rewrite (Hok Hc), app_nil_r in Hn. now symmetry.
Qed.

Lemma compare_images_reports_each_listed_file_witness :
  snd (compare_images example_listdir example_files "in"%string "in"%string)
    = Ok tt /\
  verdicts (fst (compare_images example_listdir example_files
                   "in"%string "in"%string))
    = ["a.png"%string; "r.png"%string].
Proof.
  apply (compare_images_reports_each_listed_file example_listdir example_files
           "in"%string "in"%string ["a.png"%string; "r.png"%string]).
  - reflexivity.
  - intros n [<-|[<-|[]]] _; do 2 eexists; split; reflexivity.
Defined.

(** X17: Comparing a directory of images with itself prints, after the header,
    one line per listed file with a count of 0, and no size mismatch. *)
Theorem compare_images_with_itself
        (listdir : String.string -> result (list String.string))
        (fs : files) (dir : String.string) (names : list String.string) :
  listdir dir = Ok names ->
  (forall n, In n names -> exists e, fs (join dir n) = Some (ImageFile e)) ->
  compare_images listdir fs dir dir =
  (ComparisonResults :: map (fun n => PixelDifferences n 0) names, Ok tt).
Proof.
  intros Hls Himg. unfold compare_images. rewrite Hls. clear Hls.
  assert (Hfiles : compare_files fs dir dir names =
                   (map (fun n => PixelDifferences n 0) names, Ok tt)).
  { induction names as [|n names IH]; cbn [compare_files map]; [reflexivity|].
    destruct (Himg n) as [e He]; [now left|].
    unfold image_open. rewrite He.
    rewrite IH by (intros n' Hn'; apply Himg; now right).
    unfold size_eqb. rewrite !Z.eqb_refl. cbn [andb app].
    now rewrite pixel_differences_self. }
  now rewrite Hfiles.
Qed.

Lemma compare_images_with_itself_witness :
  compare_images example_listdir example_files "in"%string "in"%string =
  (ComparisonResults ::
     map (fun n => PixelDifferences n 0) ["a.png"%string; "r.png"%string],
   Ok tt).
Proof.
  apply (compare_images_with_itself example_listdir example_files "in"%string
           ["a.png"%string; "r.png"%string]).
  - reflexivity.
  - intros n [<-|[<-|[]]]; eexists; reflexivity.
Defined.
